(** * code-visualizer: the graph extractor and the handler analyzer

    A shallow embedding of

    - [src/app/code/_utils/analyze2.ts]: class [TypeScriptAnalyzer], the
      structural graph extractor ([analyze], [addNode], [addEdge],
      [visitNode], [isExternalPackageCall], [analyzeFunctionBody]);
    - the handler analyzer module ([analyzeHandler], [analyzeConstructor],
      [analyzeMethodCalls], [determineMethodType], [getAccessModifier],
      [isExternalCall], [determineCallType], [analyzeMethodComplexity]).

    The TypeScript compiler API ([ts.Node], [ts.forEachChild],
    [ts.isClassDeclaration], ...) is an external library: it appears here
    as a data type of syntax trees and a handful of accessors. *)

From Stdlib Require Import String Ascii List ZArith NArith Bool Lia.
From Stdlib Require Import DecimalString DecimalPos DecimalN.
Import ListNotations.
Open Scope string_scope.

(** ** JavaScript strings

    A JavaScript string is read as the byte string of its UTF-8 encoding.
    [startsWith], [includes] and [endsWith] agree on the two readings for
    well-formed strings, and every pattern of the source is plain ASCII. *)

Module Js.

Fixpoint startsWith (s p : string) {struct p} : bool :=
  match p with
  | EmptyString => true
  | String b p' =>
      match s with
      | EmptyString => false
      | String a s' => Ascii.eqb a b && startsWith s' p'
      end
  end.

Fixpoint includes (s sub : string) {struct s} : bool :=
  startsWith s sub ||
  match s with
  | EmptyString => false
  | String _ s' => includes s' sub
  end.

Fixpoint endsWith (s p : string) {struct s} : bool :=
  String.eqb s p ||
  match s with
  | EmptyString => false
  | String _ s' => endsWith s' p
  end.

(** [s.split(sep)] for a separator of one character. *)
Fixpoint split (sep : ascii) (s : string) : list string :=
  match s with
  | EmptyString => [EmptyString]
  | String c r =>
      if Ascii.eqb c sep then EmptyString :: split sep r
      else match split sep r with
           | h :: t => String c h :: t
           | [] => [String c EmptyString]
           end
  end.

(** [arr.join(sep)]. *)
Definition join (sep : string) (l : list string) : string :=
  String.concat sep l.

(** [a || d] on a value that is a string or [undefined]: the empty
    string and [undefined] are the falsy ones. *)
Definition orElse (a : option string) (d : string) : string :=
  match a with
  | Some EmptyString => d
  | Some s => s
  | None => d
  end.

(** Template rendering of a non-negative integer counter. *)
Definition ofNumber (n : N) : string :=
  NilZero.string_of_uint (N.to_uint n).

(** Line terminators, which the regular expression atom [.] refuses:
    LF, CR, and U+2028 / U+2029 (three bytes each in UTF-8). *)
Definition atLineTerminator (s : string) : bool :=
  match s with
  | String c r =>
      Ascii.eqb c "010" || Ascii.eqb c "013" ||
      (Ascii.eqb c (ascii_of_nat 226) &&
       match r with
       | String c1 (String c2 _) =>
           Ascii.eqb c1 (ascii_of_nat 128) &&
           (Ascii.eqb c2 (ascii_of_nat 168) || Ascii.eqb c2 (ascii_of_nat 169))
       | _ => false
       end)
  | EmptyString => false
  end.

(** [/^.*\./] on [s]: some ["."] is reached before any line terminator. *)
Fixpoint reachesDot (s : string) : bool :=
  match s with
  | EmptyString => false
  | String c r =>
      if Ascii.eqb c "." then true
      else if atLineTerminator s then false
      else reachesDot r
  end.

Definition isLower (c : ascii) : bool :=
  (97 <=? nat_of_ascii c)%nat && (nat_of_ascii c <=? 122)%nat.

(** [/^[a-z].*\..*/.test(s)]; the trailing [.*] matches the empty
    string, so it constrains nothing. *)
Definition lowercaseDotted (s : string) : bool :=
  match s with
  | String c r => isLower c && reachesDot r
  | EmptyString => false
  end.

End Js.

(** ** The syntax tree of the TypeScript compiler API *)

Inductive Keyword := ExtendsKeyword | ImplementsKeyword.

Inductive SyntaxKind :=
| SourceFile
| FunctionDeclaration
| ClassDeclaration
| InterfaceDeclaration
| MethodDeclaration
| Constructor
| HeritageClause (token : Keyword)
| ExpressionWithTypeArguments
| ParameterNode       (* SyntaxKind.Parameter *)
| CallExpression
| PropertyAccessExpression
| Identifier (text : string)   (* [.text]: the name, unicode escapes decoded *)
| IfStatement
| ForStatement
| WhileStatement
| DoStatement
| CaseClause
| ConditionalExpression
| Block
| OtherStatement      (* any other statement kind *)
| OtherKind.          (* any other node or token kind *)

(** The property of its parent under which a child hangs. *)
Inductive Property :=
| p_name | p_parameters | p_type | p_body | p_heritageClauses | p_types
| p_members | p_expression | p_arguments | p_other.

(** A node: the property it fills in its parent, its kind, its source text
    ([getText()]) and its children in the order of [ts.forEachChild]. *)
#[warnings="-register-all"]
Inductive Node : Type :=
  mkNode (property : Property) (kind : SyntaxKind) (text : string)
         (children : list Node).

Definition property (n : Node) := let 'mkNode p _ _ _ := n in p.
Definition kind (n : Node) := let 'mkNode _ k _ _ := n in k.
Definition getText (n : Node) := let 'mkNode _ _ t _ := n in t.
Definition forEachChild (n : Node) := let 'mkNode _ _ _ c := n in c.

(** [node.text] of an identifier: the name as the scanner decoded it,
    which differs from [getText()] when the source spells the name with
    unicode escapes.  The nodes the walks read it from are identifiers; on
    any other kind the model has the property undefined. *)
Definition identifierText (n : Node) : option string :=
  match kind n with
  | Identifier text => Some text
  | _ => None
  end.

Definition Property_eqb (a b : Property) : bool :=
  match a, b with
  | p_name, p_name | p_parameters, p_parameters | p_type, p_type
  | p_body, p_body | p_heritageClauses, p_heritageClauses
  | p_types, p_types | p_members, p_members | p_expression, p_expression
  | p_arguments, p_arguments | p_other, p_other => true
  | _, _ => false
  end.

(** An optional property ([node.body], [node.name] of a class, ...). *)
Definition optional (p : Property) (n : Node) : option Node :=
  find (fun c => Property_eqb (property c) p) (forEachChild n).

(** A node-array property ([node.members], [node.parameters], ...); an
    absent array and an empty one behave alike in every use below. *)
Definition array (p : Property) (n : Node) : list Node :=
  filter (fun c => Property_eqb (property c) p) (forEachChild n).

(** A property the node types of the compiler API make mandatory
    ([call.expression], [method.name], ...).  Trees built by the parser
    always carry it; on any other tree the accessor yields an empty
    placeholder. *)
Definition mandatory (p : Property) (n : Node) : Node :=
  match optional p n with
  | Some c => c
  | None => mkNode p OtherKind EmptyString []
  end.

Definition isFunctionDeclaration (n : Node) : bool :=
  match kind n with FunctionDeclaration => true | _ => false end.
Definition isClassDeclaration (n : Node) : bool :=
  match kind n with ClassDeclaration => true | _ => false end.
Definition isInterfaceDeclaration (n : Node) : bool :=
  match kind n with InterfaceDeclaration => true | _ => false end.
Definition isMethodDeclaration (n : Node) : bool :=
  match kind n with MethodDeclaration => true | _ => false end.
Definition isConstructorDeclaration (n : Node) : bool :=
  match kind n with Constructor => true | _ => false end.
Definition isCallExpression (n : Node) : bool :=
  match kind n with CallExpression => true | _ => false end.
Definition isIfStatement (n : Node) : bool :=
  match kind n with IfStatement => true | _ => false end.
Definition isForStatement (n : Node) : bool :=
  match kind n with ForStatement => true | _ => false end.
Definition isWhileStatement (n : Node) : bool :=
  match kind n with WhileStatement => true | _ => false end.
Definition isDoStatement (n : Node) : bool :=
  match kind n with DoStatement => true | _ => false end.
Definition isCaseClause (n : Node) : bool :=
  match kind n with CaseClause => true | _ => false end.
Definition isConditionalExpression (n : Node) : bool :=
  match kind n with ConditionalExpression => true | _ => false end.
Definition isBlock (n : Node) : bool :=
  match kind n with Block => true | _ => false end.

(** [ts.isStatement]: statement kinds and declaration statements.  A
    [Block] counts only when it is not a function body; every use below
    excludes blocks, so the model answers [false] for them. *)
Definition isStatement (n : Node) : bool :=
  match kind n with
  | FunctionDeclaration | ClassDeclaration | InterfaceDeclaration
  | IfStatement | ForStatement | WhileStatement | DoStatement
  | OtherStatement => true
  | _ => false
  end.

(** ** The graph model of [analyze2.ts] *)

Inductive NodeType := ty_function | ty_class | ty_interface | ty_call.
Inductive EdgeType := e_default | e_calls | e_implements | e_extends.

Definition NodeType_eqb (a b : NodeType) : bool :=
  match a, b with
  | ty_function, ty_function | ty_class, ty_class
  | ty_interface, ty_interface | ty_call, ty_call => true
  | _, _ => false
  end.

Module CodeNode.
Record t := mk {
  id : string;
  type : NodeType;
  label : string;             (* data.label *)
  details : option string;    (* data.details *)
  x : Z;                      (* position.x *)
  y : Z                       (* position.y *)
}.
End CodeNode.

Module CodeEdge.
Record t := mk {
  id : string;
  source : string;
  target : string;
  type : EdgeType
}.
End CodeEdge.

Module VisitedNode.
Record t := mk {
  id : string;
  name : string;
  type : NodeType
}.
End VisitedNode.

Record AnalyzerResult := {
  res_nodes : list CodeNode.t;
  res_edges : list CodeEdge.t
}.

(** The instance fields of [TypeScriptAnalyzer]. *)
Record TypeScriptAnalyzer := {
  nodes : list CodeNode.t;
  edges : list CodeEdge.t;
  visitedNodes : list VisitedNode.t;
  nodeCounter : N;
  currentX : Z;
  currentY : Z
}.

Definition packagesToIgnore : list string :=
  [ "console"; "logger"; "supabase"; "dayjs"; "moment"; "axios"; "fetch";
    "localStorage"; "JSON"; "Object"; "supabaseAdmin"; "Math"; "Date";
    "Error"; "map"; "from"; "to"; "Array"; "Set"; "Map"; "Promise";
    "pg_execute" ].

(** A fresh instance, by the field initialisers of the class. *)
Definition resetState : TypeScriptAnalyzer :=
  {| nodes := []; edges := []; visitedNodes := [];
     nodeCounter := 0; currentX := 0; currentY := 0 |}.

(** [createNodeId]: pre-increment, then render. *)
Definition createNodeId (s : TypeScriptAnalyzer) : string * TypeScriptAnalyzer :=
  let c := N.succ (nodeCounter s) in
  ("node-" ++ Js.ofNumber c,
   {| nodes := nodes s; edges := edges s; visitedNodes := visitedNodes s;
      nodeCounter := c; currentX := currentX s; currentY := currentY s |}).

Definition findVisitedNode (name : string) (type : NodeType)
    (s : TypeScriptAnalyzer) : option VisitedNode.t :=
  find (fun node => String.eqb (VisitedNode.name node) name
                    && NodeType_eqb (VisitedNode.type node) type)
       (visitedNodes s).

Definition addNode (type : NodeType) (name : string) (details : option string)
    (s : TypeScriptAnalyzer) : string * TypeScriptAnalyzer :=
  match findVisitedNode name type s with
  | Some existingNode => (VisitedNode.id existingNode, s)
  | None =>
      let '(id, s1) := createNodeId s in
      let node := CodeNode.mk id type name details (currentX s1) (currentY s1) in
      let nodes' := (nodes s1 ++ [node])%list in
      let visited' := (visitedNodes s1 ++ [VisitedNode.mk id name type])%list in
      let y1 := (currentY s1 + 100)%Z in
      let '(x2, y2) := if (500 <? y1)%Z then ((currentX s1 + 250)%Z, 0%Z)
                       else (currentX s1, y1) in
      (id, {| nodes := nodes'; edges := edges s1; visitedNodes := visited';
              nodeCounter := nodeCounter s1; currentX := x2; currentY := y2 |})
  end.

(** The [type] parameter defaults to ['default'] when omitted. *)
Definition addEdge (source target : string) (type : option EdgeType)
    (s : TypeScriptAnalyzer) : TypeScriptAnalyzer :=
  let edge := CodeEdge.mk ("edge-" ++ source ++ "-" ++ target) source target
                (match type with Some t => t | None => e_default end) in
  {| nodes := nodes s; edges := (edges s ++ [edge])%list;
     visitedNodes := visitedNodes s; nodeCounter := nodeCounter s;
     currentX := currentX s; currentY := currentY s |}.

Definition isExternalPackageCall (functionName : string) : bool :=
  if existsb (fun packageName => Js.startsWith functionName packageName)
             packagesToIgnore
  then true
  else
    Js.lowercaseDotted functionName
    || Js.startsWith functionName "$"
    || Js.startsWith functionName "_".

(** [analyzeFunctionBody]: the local closure [visitCallExpression], run on
    the body.  An external call returns before [ts.forEachChild]: neither
    the call nor anything below it is looked at. *)
Fixpoint visitCallExpression (functionNodeId : string) (node : Node)
    (s : TypeScriptAnalyzer) {struct node} : TypeScriptAnalyzer :=
  match node with
  | mkNode _ _ _ children =>
      if isCallExpression node then
        let calledFunction := getText (mandatory p_expression node) in
        if isExternalPackageCall calledFunction then s
        else
          let '(callNodeId, s1) :=
            match findVisitedNode calledFunction ty_function s with
            | Some existingNode => (VisitedNode.id existingNode, s)
            | None => addNode ty_call calledFunction None s
            end in
          let s2 := addEdge functionNodeId callNodeId (Some e_calls) s1 in
          fold_left (fun st child => visitCallExpression functionNodeId child st)
                    children s2
      else
        fold_left (fun st child => visitCallExpression functionNodeId child st)
                  children s
  end.

Definition analyzeFunctionBody (body : Node) (functionNodeId : string)
    (s : TypeScriptAnalyzer) : TypeScriptAnalyzer :=
  visitCallExpression functionNodeId body s.

(** [clause.token] of a heritage clause. *)
Definition token (clause : Node) : option Keyword :=
  match kind clause with
  | HeritageClause t => Some t
  | _ => None
  end.

(** [node.name?.getText().split('.')[1] || 'anonymous']. *)
Definition functionName (node : Node) : string :=
  Js.orElse
    (match optional p_name node with
     | Some nm => nth_error (Js.split "." (getText nm)) 1
     | None => None
     end)
    "anonymous".

(** [node.name?.getText() || 'anonymous']. *)
Definition className (node : Node) : string :=
  Js.orElse (option_map getText (optional p_name node)) "anonymous".

(** The rendered signature of a function declaration. *)
Definition functionDetails (node : Node) : string :=
  let params := Js.join ", " (map getText (array p_parameters node)) in
  let returnType :=
    match optional p_type node with
    | Some ty => ": " ++ getText ty
    | None => EmptyString
    end in
  "(" ++ params ++ ")" ++ returnType.

(** The three-way dispatch at the head of [visitNode], before the walk
    goes on into the children. *)
Definition visitDeclaration (node : Node) (s : TypeScriptAnalyzer)
    : TypeScriptAnalyzer :=
  if isFunctionDeclaration node then
    let '(nodeId, s1) :=
      addNode ty_function (functionName node) (Some (functionDetails node)) s in
    match optional p_body node with
    | Some body => analyzeFunctionBody body nodeId s1
    | None => s1
    end
  else if isClassDeclaration node then
    let '(nodeId, s1) := addNode ty_class (className node) None s in
    let s2 :=
      fold_left (fun st clause =>
        fold_left (fun st type =>
          let baseClassName := getText (mandatory p_expression type) in
          let '(baseClassId, st1) := addNode ty_class baseClassName None st in
          addEdge nodeId baseClassId
            (Some (match token clause with
                   | Some ExtendsKeyword => e_extends
                   | _ => e_implements
                   end)) st1)
          (array p_types clause) st)
        (array p_heritageClauses node) s1 in
    fold_left (fun st member =>
      if isMethodDeclaration member then
        let methodName := getText (mandatory p_name member) in
        let '(methodId, st1) := addNode ty_function methodName None st in
        let st2 := addEdge nodeId methodId None st1 in
        match optional p_body member with
        | Some body => analyzeFunctionBody body methodId st2
        | None => st2
        end
      else st)
      (array p_members node) s2
  else if isInterfaceDeclaration node then
    let interfaceName := getText (mandatory p_name node) in
    let '(nodeId, s1) := addNode ty_interface interfaceName None s in
    fold_left (fun st clause =>
      fold_left (fun st type =>
        let baseInterfaceName := getText (mandatory p_expression type) in
        let '(baseId, st1) := addNode ty_interface baseInterfaceName None st in
        addEdge nodeId baseId (Some e_extends) st1)
        (array p_types clause) st)
      (array p_heritageClauses node) s1
  else s.

Fixpoint visitNode (node : Node) (s : TypeScriptAnalyzer) {struct node}
    : TypeScriptAnalyzer :=
  match node with
  | mkNode _ _ _ children =>
      fold_left (fun st child => visitNode child st) children
                (visitDeclaration node s)
  end.

(** The six assignments at the head of [analyze], one after the other. *)
Definition reset (this : TypeScriptAnalyzer) : TypeScriptAnalyzer :=
  let this :=
    {| nodes := []; edges := edges this; visitedNodes := visitedNodes this;
       nodeCounter := nodeCounter this; currentX := currentX this;
       currentY := currentY this |} in
  let this :=
    {| nodes := nodes this; edges := []; visitedNodes := visitedNodes this;
       nodeCounter := nodeCounter this; currentX := currentX this;
       currentY := currentY this |} in
  let this :=
    {| nodes := nodes this; edges := edges this; visitedNodes := [];
       nodeCounter := nodeCounter this; currentX := currentX this;
       currentY := currentY this |} in
  let this :=
    {| nodes := nodes this; edges := edges this;
       visitedNodes := visitedNodes this;
       nodeCounter := 0; currentX := currentX this;
       currentY := currentY this |} in
  let this :=
    {| nodes := nodes this; edges := edges this;
       visitedNodes := visitedNodes this;
       nodeCounter := nodeCounter this; currentX := 0;
       currentY := currentY this |} in
  {| nodes := nodes this; edges := edges this;
     visitedNodes := visitedNodes this;
     nodeCounter := nodeCounter this; currentX := currentX this;
     currentY := 0 |}.

(** [analyze], from the parsed source file on: [ts.createSourceFile] is
    the external parser.  The first component is the returned record, the
    second the instance after the call. *)
Definition analyze (this : TypeScriptAnalyzer) (sourceFile : Node)
    : AnalyzerResult * TypeScriptAnalyzer :=
  let s := visitNode sourceFile (reset this) in
  ({| res_nodes := nodes s; res_edges := edges s |}, s).

(** ** The handler analyzer *)

Inductive Action := SELECT | INSERT | UPDATE | DELETE.
Inductive ExternalType := ext_api | ext_queue.

Module Handler.
Record Database := mkDatabase {
  table : string;
  actions : list Action
}.
Record External := mkExternal {
  ext_type : ExternalType;
  ext_name : string;
  endpoints : option (list string)
}.
Record Dependencies := mkDependencies {
  services : list string;
  databases : list Database;
  external : list External
}.
(** The react-flow node [analyzeHandler] builds; its [type] field is the
    constant ["handler"]. *)
Record t := mk {
  id : string;
  x : Z;                     (* position.x *)
  y : Z;                     (* position.y *)
  handler : string;          (* data.handler *)
  method : string;           (* data.method *)
  dependencies : Dependencies
}.
End Handler.

(** What [analyzeConstructor] returns: databases still under [name]. *)
Record ConstructorDependencies := {
  dep_services : list string;
  dep_databases : list (string * list Action);
  dep_external : list Handler.External
}.

Definition analyzeConstructor (node : Node) : ConstructorDependencies :=
  fold_left (fun dependencies param =>
    match option_map getText (optional p_type param) with
    | Some type =>
        if String.eqb type EmptyString then dependencies
        else if Js.endsWith type "Service" then
          {| dep_services := dep_services dependencies ++ [type];
             dep_databases := dep_databases dependencies;
             dep_external := dep_external dependencies |}
        else if Js.includes type "Database" then
          {| dep_services := dep_services dependencies;
             dep_databases := dep_databases dependencies ++
               [(getText (mandatory p_name param),
                 [SELECT; INSERT; UPDATE; DELETE])];
             dep_external := dep_external dependencies |}
        else dependencies
    | None => dependencies
    end)%list
    (array p_parameters node)
    {| dep_services := []; dep_databases := []; dep_external := [] |}.

(** The object literal at the head of [analyzeHandler]; [uuid] is what
    [crypto.randomUUID()] hands out for this call. *)
Definition newHandlerNode (uuid : string) : Handler.t :=
  Handler.mk uuid 0 0 EmptyString EmptyString
    (Handler.mkDependencies [] [] []).

(** The body of the [ts.isClassDeclaration] branch of [visit]: the
    updates it makes to [handlerNode].  The class name is read with
    [node.name?.text], the method names with [getText()]. *)
Definition visitClass (handlerNode : Handler.t) (node : Node) : Handler.t :=
  let handler :=
    Js.orElse (match optional p_name node with
               | Some name => identifierText name
               | None => None
               end)
              EmptyString in
  let dependencies :=
    match find isConstructorDeclaration (array p_members node) with
    | Some constructor =>
        let deps := analyzeConstructor constructor in
        Handler.mkDependencies
          (dep_services deps)
          (map (fun db => Handler.mkDatabase (fst db) (snd db))
               (dep_databases deps))
          (dep_external deps)
    | None => Handler.dependencies handlerNode
    end in
  let method :=
    fold_left (fun _ m => getText (mandatory p_name m))
              (filter isMethodDeclaration (array p_members node))
              (Handler.method handlerNode) in
  Handler.mk (Handler.id handlerNode) (Handler.x handlerNode)
             (Handler.y handlerNode) handler method dependencies.

(** The local function [visit] of [analyzeHandler].  [node.getChildren()]
    also lists tokens and syntax lists; they are nodes of the tree like
    any other ([OtherKind]) and never class declarations. *)
Fixpoint visitHandler (handlerNode : Handler.t) (node : Node) {struct node}
    : option (list Handler.t) :=
  match node with
  | mkNode _ _ _ children =>
      if isClassDeclaration node then Some [visitClass handlerNode node]
      else
        (fix loop (cs : list Node) : option (list Handler.t) :=
           match cs with
           | [] => None
           | child :: rest =>
               match visitHandler handlerNode child with
               | Some result => Some result
               | None => loop rest
               end
           end) children
  end.

Definition analyzeHandler (uuid : string) (sourceFile : Node)
    : option (list Handler.t) :=
  visitHandler (newHandlerNode uuid) sourceFile.

Definition determineCallType (target : string) : string :=
  if Js.includes target "supabaseAdmin"
     || Js.includes target "pg_execute"
     || Js.includes target "repository"
     || Js.includes target "dao"
  then "database"
  else if Js.includes target "axios"
          || Js.includes target "fetch"
          || Js.includes target "http"
          || Js.includes target "request"
  then "api"
  else if Js.includes target "Queue"
          || Js.includes target "queue"
          || Js.includes target "EventHandler"
  then "queue"
  else if Js.includes target "Service" || Js.includes target "Client"
  then "service"
  else if Js.includes target "logger" || Js.includes target "this.slack"
  then "utility"
  else "unknown".

(** *** Method complexity *)

Inductive JsError := TypeError.

(** How a call ends: with a value, or with a thrown exception. *)
Inductive Completion (A : Type) :=
| Normal (value : A)
| Throw (e : JsError).
Arguments Normal {A} value.
Arguments Throw {A} e.

(** The four local counters of [analyzeMethodComplexity]. *)
Record Counters := {
  complexity : Z;
  statements : Z;
  maxDepth : Z;
  currentDepth : Z
}.

Record ComplexityMetrics := {
  cyclomaticComplexity : Z;
  numberOfStatements : Z;
  depth : Z
}.

Definition nests (node : Node) : bool :=
  isBlock node || isIfStatement node || isForStatement node
  || isWhileStatement node.

(** The local function [visit] of [analyzeMethodComplexity]. *)
Fixpoint visitComplexity (node : Node) (c : Counters) {struct node}
    : Counters :=
  match node with
  | mkNode _ _ _ children =>
      let c1 :=
        if isIfStatement node || isForStatement node || isWhileStatement node
           || isDoStatement node || isCaseClause node
           || isConditionalExpression node
        then {| complexity := complexity c + 1; statements := statements c;
                maxDepth := maxDepth c; currentDepth := currentDepth c |}
        else c in
      let c2 :=
        if nests node
        then {| complexity := complexity c1; statements := statements c1;
                maxDepth := Z.max (maxDepth c1) (currentDepth c1 + 1);
                currentDepth := currentDepth c1 + 1 |}
        else c1 in
      let c3 :=
        if isStatement node && negb (isBlock node)
        then {| complexity := complexity c2; statements := statements c2 + 1;
                maxDepth := maxDepth c2; currentDepth := currentDepth c2 |}
        else c2 in
      let c4 := fold_left (fun st child => visitComplexity child st)
                          children c3 in
      if nests node
      then {| complexity := complexity c4; statements := statements c4;
              maxDepth := maxDepth c4; currentDepth := currentDepth c4 - 1 |}
      else c4
  end%Z.

(** [visit(node.body!)]: the non-null assertion is erased by the
    compiler, so an absent body reaches [visit] as [undefined], and the
    first test there, [ts.isIfStatement(undefined)], reads [.kind] of
    [undefined]: a [TypeError]. *)
Definition analyzeMethodComplexity (node : Node)
    : Completion ComplexityMetrics :=
  match optional p_body node with
  | None => Throw TypeError
  | Some body =>
      let c := visitComplexity body
                 {| complexity := 1; statements := 0; maxDepth := 0;
                    currentDepth := 0 |}%Z in
      Normal {| cyclomaticComplexity := complexity c;
                numberOfStatements := statements c;
                depth := maxDepth c |}
  end.

(** ** Building trees

    Shorthands for the node shapes the parser produces, used for the
    concrete programs below. *)

Module Build.

(** An identifier written without escapes: its [.text] is its source
    text. *)
Definition identifier (p : Property) (name : string) : Node :=
  mkNode p (Identifier name) name [].

(** [target.action]. *)
Definition propertyAccess (p : Property) (target action : string) : Node :=
  mkNode p PropertyAccessExpression (target ++ "." ++ action)
    [identifier p_expression target; identifier p_name action].

(** [callee()] for a callee expression and no argument. *)
Definition call (p : Property) (callee : Node) : Node :=
  mkNode p CallExpression (getText callee ++ "()") [callee].

(** [callee();] as a statement. *)
Definition callStatement (callee : Node) : Node :=
  mkNode p_other OtherStatement (getText callee ++ "();")
    [call p_expression callee].

Definition block (p : Property) (statements : list Node) : Node :=
  mkNode p Block "{ ... }" statements.

(** [function name() body]. *)
Definition functionDecl (name : string) (body : Node) : Node :=
  mkNode p_other FunctionDeclaration ("function " ++ name ++ "() { ... }")
    [identifier p_name name; body].

(** [name() body] as a class member, or [name();] without a body. *)
Definition methodDecl (name : string) (body : option Node) : Node :=
  mkNode p_members MethodDeclaration (name ++ "()")
    (identifier p_name name ::
     match body with Some b => [b] | None => [] end).

(** [extends base] or [implements base]. *)
Definition heritage (tok : Keyword) (base : string) : Node :=
  mkNode p_heritageClauses (HeritageClause tok) base
    [mkNode p_types ExpressionWithTypeArguments base
       [identifier p_expression base]].

Definition classDecl (name : option string) (clauses members : list Node)
    : Node :=
  mkNode p_other ClassDeclaration "class { ... }"
    ((match name with Some n => [identifier p_name n] | None => [] end)
       ++ clauses ++ members)%list.

Definition interfaceDecl (name : string) : Node :=
  mkNode p_other InterfaceDeclaration ("interface " ++ name ++ " {}")
    [identifier p_name name].

Definition sourceFile (statements : list Node) : Node :=
  mkNode p_other SourceFile "..." statements.

End Build.


(** ** Notions the properties are stated with *)

(** The nodes of a tree, top-down, depth-first, left to right. *)
Fixpoint preorder (n : Node) : list Node :=
  match n with
  | mkNode _ _ _ children => n :: flat_map preorder children
  end.

Definition firstClassDeclaration (ast : Node) : option Node :=
  find isClassDeclaration (preorder ast).


(** What [visitCallExpression] does with a call it keeps, before going
    on into the children: resolve the callee to a node, then add the
    edge. *)
Definition recordCall (functionNodeId calledFunction : string)
    (s : TypeScriptAnalyzer) : TypeScriptAnalyzer :=
  let '(callNodeId, s1) :=
    match findVisitedNode calledFunction ty_function s with
    | Some existingNode => (VisitedNode.id existingNode, s)
    | None => addNode ty_call calledFunction None s
    end in
  addEdge functionNodeId callNodeId (Some e_calls) s1.





(** The edge [addEdge] builds. *)
Definition edgeBetween (source target : string) (type : EdgeType)
    : CodeEdge.t :=
  CodeEdge.mk ("edge-" ++ source ++ "-" ++ target) source target type.


(** [s'] holds all that [s] holds, in the same order, and maybe more. *)
Definition grows (s s' : TypeScriptAnalyzer) : Prop :=
  (exists more, nodes s' = (nodes s ++ more)%list)
  /\ (exists more, edges s' = (edges s ++ more)%list)
  /\ (exists more, visitedNodes s' = (visitedNodes s ++ more)%list).

(** The [(name, kind)] pair of a graph node and of an index entry. *)
Definition nodeKey (n : CodeNode.t) : string * NodeType :=
  (CodeNode.label n, CodeNode.type n).
Definition visitedKey (v : VisitedNode.t) : string * NodeType :=
  (VisitedNode.name v, VisitedNode.type v).

(** The identity index lists the graph nodes, key by key, and no key
    occurs twice. *)
Definition identityIndexed (s : TypeScriptAnalyzer) : Prop :=
  map visitedKey (visitedNodes s) = map nodeKey (nodes s)
  /\ NoDup (map nodeKey (nodes s)).

(** Where the cursor stands once [k] nodes exist: columns of six. *)
Definition cursorAt (k : nat) : Z * Z :=
  (250 * (Z.of_nat k / 6), 100 * (Z.of_nat k mod 6))%Z.

(** Every node sits where the cursor stood when it was created, and the
    cursor stands ready for the next one. *)
Definition laidOut (s : TypeScriptAnalyzer) : Prop :=
  (currentX s, currentY s) = cursorAt (length (nodes s))
  /\ forall k n, nth_error (nodes s) k = Some n ->
                 (CodeNode.x n, CodeNode.y n) = cursorAt k.

(** The categories of [determineCallType] as an ordered rule table: the
    substrings that select a category, in priority order. *)
Definition callTypeRules : list (list string * string) :=
  [ (["supabaseAdmin"; "pg_execute"; "repository"; "dao"], "database");
    (["axios"; "fetch"; "http"; "request"], "api");
    (["Queue"; "queue"; "EventHandler"], "queue");
    (["Service"; "Client"], "service");
    (["logger"; "this.slack"], "utility") ].

Definition matchesRule (target : string) (rule : list string * string) : bool :=
  existsb (fun pattern => Js.includes target pattern) (fst rule).

(** The category of the first rule that matches, ["unknown"] if none. *)
Definition firstMatchingCategory (target : string) : string :=
  match find (matchesRule target) callTypeRules with
  | Some rule => snd rule
  | None => "unknown"
  end.

(** A handler node with its identifier replaced. *)
Definition withId (uuid : string) (h : Handler.t) : Handler.t :=
  Handler.mk uuid (Handler.x h) (Handler.y h) (Handler.handler h)
             (Handler.method h) (Handler.dependencies h).

(** ** Sample programs *)

Module Sample.
Import Build.

(** [function foo() {}] *)
Definition fooProgram : Node :=
  sourceFile [functionDecl "foo" (block p_body [])].

(** [myService.process()] and [console.log()] as call expressions. *)
Definition myServiceCall : Node :=
  call p_other (propertyAccess p_expression "myService" "process").
Definition consoleLogCall : Node :=
  call p_other (propertyAccess p_expression "console" "log").





(** [MyService.process()] *)
Definition upperServiceCall : Node :=
  call p_other (propertyAccess p_expression "MyService" "process").

(** Seven interfaces [I1] ... [I7]. *)
Definition sevenInterfaces : Node :=
  sourceFile (map interfaceDecl ["I1"; "I2"; "I3"; "I4"; "I5"; "I6"; "I7"]).

(** [function f() {}  class {}  class B {}]: the first class is unnamed. *)
Definition unnamedClassProgram : Node :=
  sourceFile
    [functionDecl "f" (block p_body []);
     classDecl None [] [];
     classDecl (Some "B") [] []].

(** [class A { m() {} }  class B {}] *)
Definition classA : Node :=
  classDecl (Some "A") [] [methodDecl "m" (Some (block p_body []))].
Definition twoClassesProgram : Node :=
  sourceFile [classA; classDecl (Some "B") [] []].

(** [abstract m();]: a method declaration without a body. *)
Definition abstractMethod : Node := methodDecl "m" None.

(** An instance that has already seen a class [A]. *)
Definition afterClassA : TypeScriptAnalyzer :=
  snd (addNode ty_class "A" None resetState).

End Sample.

(** ** The handler analyzer: method-level helpers *)

Definition isPropertyAccessExpression (n : Node) : bool :=
  match kind n with PropertyAccessExpression => true | _ => false end.

Definition determineMethodType (node : Node) : string :=
  let methodName := getText (mandatory p_name node) in
  if Js.startsWith methodName "process" then "processor"
  else if Js.startsWith methodName "handle" || Js.startsWith methodName "send"
  then "action"
  else if Js.startsWith methodName "validate" then "validator"
  else if Js.startsWith methodName "get" || Js.startsWith methodName "check"
  then "helper"
  else "helper".

(** The kind of one entry of [node.modifiers], as far as
    [getAccessModifier] tells kinds apart. *)
Inductive ModifierKind :=
| PrivateKeyword
| ProtectedKeyword
| PublicKeyword
| OtherModifier.      (* static, async, abstract, a decorator, ... *)

(** [getAccessModifier] reads nothing of its node but [node.modifiers],
    and of each modifier nothing but its kind: the model takes that array
    ([None] when the node has none). *)
Definition getAccessModifier (modifiers : option (list ModifierKind))
    : string :=
  match modifiers with
  | Some ms =>
      (fix loop (ms : list ModifierKind) : string :=
         match ms with
         | [] => "public"
         | PrivateKeyword :: _ => "private"
         | ProtectedKeyword :: _ => "protected"
         | PublicKeyword :: _ => "public"
         | OtherModifier :: rest => loop rest
         end) ms
  | None => "public"
  end.

Definition externalServices : list string :=
  [ "supabaseAdmin"; "axios"; "pg_execute"; "this.slack";
    "this.broadcastMessageInfoQueue"; "this.broadcastProgressQueue";
    "EventHandler"; "SlackWebhook" ].

Definition databasePatterns : list string :=
  [ "repository"; "dao"; "db"; "database"; "query"; "transaction" ].

Definition apiPatterns : list string :=
  [ "api"; "client"; "http"; "request"; "fetch" ].

Module MethodCalls.
Record External := mkExternal {
  type : string;
  target : string;
  action : string
}.
Record t := mk {
  internal : list string;
  external : list External
}.
End MethodCalls.

(** [String.prototype.toLowerCase] belongs to the language, and its
    action outside ASCII is a matter of Unicode tables: the functions
    that call it take it as given. *)
Section LowerCase.

Variable toLowerCase : string -> string.

Definition isExternalCall (target : string) : bool :=
  existsb (fun service => Js.includes target service) externalServices
  || existsb (fun pattern => Js.includes (toLowerCase target) pattern)
             databasePatterns
  || existsb (fun pattern => Js.includes (toLowerCase target) pattern)
             apiPatterns
  || Js.startsWith target "this.".

(** The local function [visit] of [analyzeMethodCalls]. *)
Fixpoint visitMethodCalls (node : Node) (calls : MethodCalls.t) {struct node}
    : MethodCalls.t :=
  match node with
  | mkNode _ _ _ children =>
      let calls1 :=
        if isCallExpression node then
          if isPropertyAccessExpression (mandatory p_expression node) then
            let target :=
              getText (mandatory p_expression (mandatory p_expression node)) in
            let action :=
              getText (mandatory p_name (mandatory p_expression node)) in
            if isExternalCall target then
              MethodCalls.mk
                (MethodCalls.internal calls)
                (MethodCalls.external calls ++
                   [MethodCalls.mkExternal (determineCallType target)
                      target action])%list
            else
              MethodCalls.mk (MethodCalls.internal calls ++ [action])%list
                             (MethodCalls.external calls)
          else calls
        else calls in
      fold_left (fun st child => visitMethodCalls child st) children calls1
  end.

Definition analyzeMethodCalls (node : Node) : MethodCalls.t :=
  visitMethodCalls node (MethodCalls.mk [] []).

End LowerCase.

(** ** Further notions the properties are stated with *)

(** The identifiers of the graph nodes, in creation order. *)
Definition nodeIds (s : TypeScriptAnalyzer) : list string :=
  map CodeNode.id (nodes s).

(** The index mirrors the node list, and both ends of every edge are
    identifiers of graph nodes. *)
Definition linked (s : TypeScriptAnalyzer) : Prop :=
  map VisitedNode.id (visitedNodes s) = nodeIds s
  /\ forall e, In e (edges s) ->
       In (CodeEdge.source e) (nodeIds s) /\ In (CodeEdge.target e) (nodeIds s).

(** The identifier [createNodeId] hands out on its [k]-th call. *)
Definition nthNodeId (k : nat) : string :=
  "node-" ++ Js.ofNumber (N.of_nat k).

(** The counter counts the nodes, and the nodes carry the identifiers
    of the calls 1, 2, ... in creation order. *)
Definition numbered (s : TypeScriptAnalyzer) : Prop :=
  nodeCounter s = N.of_nat (length (nodes s))
  /\ nodeIds s = map nthNodeId (seq 1 (length (nodes s))).

(** The index and the node list agree entry by entry on identifier,
    name and kind. *)
Definition mirrored (s : TypeScriptAnalyzer) : Prop :=
  map (fun v => (VisitedNode.id v, VisitedNode.name v, VisitedNode.type v))
      (visitedNodes s)
  = map (fun n => (CodeNode.id n, CodeNode.label n, CodeNode.type n))
        (nodes s).

(** What [visitNode] does with one heritage clause of the declaration
    whose node is [nodeId]: for each type of the clause, resolve the base
    to a node of kind [type] and add the edge. *)
Definition heritageStep (nodeId : string) (type : NodeType)
    (edgeType : Node -> EdgeType) (st : TypeScriptAnalyzer) (clause : Node)
    : TypeScriptAnalyzer :=
  fold_left (fun st base =>
    let baseName := getText (mandatory p_expression base) in
    let '(baseId, st1) := addNode type baseName None st in
    addEdge nodeId baseId (Some (edgeType clause)) st1)
    (array p_types clause) st.

(** [extends] for an extends clause, [implements] for any other. *)
Definition classEdgeType (clause : Node) : EdgeType :=
  match token clause with
  | Some ExtendsKeyword => e_extends
  | _ => e_implements
  end.

(** What [visitNode] does with one member of the class whose node is
    [nodeId]. *)
Definition memberStep (nodeId : string) (st : TypeScriptAnalyzer)
    (member : Node) : TypeScriptAnalyzer :=
  if isMethodDeclaration member then
    let '(methodId, st1) :=
      addNode ty_function (getText (mandatory p_name member)) None st in
    let st2 := addEdge nodeId methodId None st1 in
    match optional p_body member with
    | Some body => analyzeFunctionBody body methodId st2
    | None => st2
    end
  else st.

Definition isDeclaration (n : Node) : bool :=
  isFunctionDeclaration n || isClassDeclaration n || isInterfaceDeclaration n.

(** The nodes [visit] of [analyzeMethodComplexity] counts as a branch. *)
Definition isBranch (node : Node) : bool :=
  isIfStatement node || isForStatement node || isWhileStatement node
  || isDoStatement node || isCaseClause node || isConditionalExpression node.

Definition isCountedStatement (node : Node) : bool :=
  isStatement node && negb (isBlock node).

(** How many nodes of a tree satisfy [f]. *)
Definition countNodes (f : Node -> bool) (n : Node) : Z :=
  Z.of_nat (length (filter f (preorder n))).

(** The largest number of nesting nodes (blocks, if, for, while) on a
    path from the node downwards. *)
Fixpoint nestingDepth (n : Node) : Z :=
  match n with
  | mkNode _ _ _ children =>
      ((if nests n then 1 else 0)
       + fold_right (fun child m => Z.max (nestingDepth child) m) 0 children)%Z
  end.

(** A call expression whose callee is a property access, the only shape
    [analyzeMethodCalls] records. *)
Definition isMemberCall (n : Node) : bool :=
  isCallExpression n && isPropertyAccessExpression (mandatory p_expression n).

Definition callTarget (n : Node) : string :=
  getText (mandatory p_expression (mandatory p_expression n)).
Definition callAction (n : Node) : string :=
  getText (mandatory p_name (mandatory p_expression n)).

(** What [analyzeMethodCalls] writes down for an external member call. *)
Definition externalEntry (n : Node) : MethodCalls.External :=
  MethodCalls.mkExternal (determineCallType (callTarget n)) (callTarget n)
                         (callAction n).

Definition recordedInternal (toLowerCase : string -> string) (n : Node)
    : bool :=
  isMemberCall n && negb (isExternalCall toLowerCase (callTarget n)).

Definition recordedExternal (toLowerCase : string -> string) (n : Node)
    : bool :=
  isMemberCall n && isExternalCall toLowerCase (callTarget n).

(** The declared type of a constructor parameter when [analyzeConstructor]
    looks at it: present and not empty. *)
Definition declaredType (param : Node) : option string :=
  match option_map getText (optional p_type param) with
  | Some EmptyString => None
  | other => other
  end.

Definition isServiceParameter (param : Node) : bool :=
  match declaredType param with
  | Some type => Js.endsWith type "Service"
  | None => false
  end.

Definition isDatabaseParameter (param : Node) : bool :=
  match declaredType param with
  | Some type => negb (Js.endsWith type "Service") && Js.includes type "Database"
  | None => false
  end.

Definition allActions : list Action := [SELECT; INSERT; UPDATE; DELETE].

(** [param.type.getText()] and [param.name.getText()]. *)
Definition parameterType (param : Node) : string :=
  getText (mandatory p_type param).
Definition parameterName (param : Node) : string :=
  getText (mandatory p_name param).

(** [node.name?.text] of a class declaration: the decoded name, when the
    class has one. *)
Definition classNameText (class : Node) : option string :=
  match optional p_name class with
  | Some name => identifierText name
  | None => None
  end.

(** [method.name.getText()]. *)
Definition methodName (method : Node) : string :=
  getText (mandatory p_name method).

(** The [MethodDeclaration] members of a class, in source order. *)
Definition methodsOf (class : Node) : list Node :=
  filter isMethodDeclaration (array p_members class).

Definition isAccessKeyword (m : ModifierKind) : bool :=
  match m with OtherModifier => false | _ => true end.

Definition accessOf (m : ModifierKind) : string :=
  match m with
  | PrivateKeyword => "private"
  | ProtectedKeyword => "protected"
  | _ => "public"
  end.

(** ** Further sample programs *)

Module Sample2.
Import Build.

(** Lower-casing of the ASCII letters, the other bytes left alone. *)
Fixpoint asciiLower (s : string) : string :=
  match s with
  | EmptyString => EmptyString
  | String c r =>
      let n := nat_of_ascii c in
      String (if ((65 <=? n) && (n <=? 90))%nat then ascii_of_nat (n + 32)
              else c)
             (asciiLower r)
  end.

(** [target.action()] where [target] is itself an expression text. *)
Definition memberCall (target action : string) : Node :=
  call p_other (propertyAccess p_expression target action).

(** [{ this.repo.save(); helper(); util.format(); }] *)
Definition mixedBody : Node :=
  block p_body
    [mkNode p_other OtherStatement "this.repo.save();"
       [memberCall "this.repo" "save"];
     callStatement (identifier p_expression "helper");
     mkNode p_other OtherStatement "util.format();"
       [memberCall "util" "format"]].

(** A constructor parameter [name: type]. *)
Definition parameter (name type : string) : Node :=
  mkNode p_parameters ParameterNode (name ++ ": " ++ type)
    [identifier p_name name; mkNode p_type OtherKind type []].

(** [constructor(a: UserService, b: DatabaseService, c: MainDatabase, d)] *)
Definition sampleConstructor : Node :=
  mkNode p_members Constructor "constructor(...) {}"
    [parameter "a" "UserService"; parameter "b" "DatabaseService";
     parameter "c" "MainDatabase";
     mkNode p_parameters ParameterNode "d" [identifier p_name "d"]].

(** [class H { constructor(...) {}  first() {}  last() {} }] *)
Definition handlerClass : Node :=
  classDecl (Some "H") []
    [sampleConstructor;
     methodDecl "first" (Some (block p_body []));
     methodDecl "last" (Some (block p_body []))].

(** A class whose name is spelled with a unicode escape for the letter
    A: the source text of the name is a backslash, [u0041] and [bc], its
    [.text] is [Abc]. *)
Definition escapedClass : Node :=
  mkNode p_other ClassDeclaration "class \u0041bc {}"
    [mkNode p_name (Identifier "Abc") "\u0041bc" []].

(** [class H {...}  class Z {}]: a handler class and a later class. *)
Definition handlerProgram : Node :=
  sourceFile [handlerClass; classDecl (Some "Z") [] []].

(** [{ if (c) { while (d) { } } }] as a method body. *)
Definition nestedBody : Node :=
  block p_body
    [mkNode p_other IfStatement "if (c) { while (d) { } }"
       [identifier p_expression "c";
        block p_other
          [mkNode p_other WhileStatement "while (d) { }"
             [identifier p_expression "d"; block p_other []]]]].

(** [class A extends B { m() { helper(); } }  interface I {}] *)
Definition methodM : Node :=
  methodDecl "m"
    (Some (block p_body [callStatement (identifier p_expression "helper")])).
Definition classAB : Node :=
  classDecl (Some "A") [heritage ExtendsKeyword "B"] [methodM].
Definition linkedProgram : Node :=
  sourceFile [classAB; interfaceDecl "I"].

(** [interface J extends I {}] *)
Definition interfaceJI : Node :=
  mkNode p_other InterfaceDeclaration "interface J extends I {}"
    [identifier p_name "J"; heritage ExtendsKeyword "I"].

(** [helper(); Other.run();]: calls, but no declaration. *)
Definition callsOnlyProgram : Node :=
  sourceFile
    [callStatement (identifier p_expression "helper");
     mkNode p_other OtherStatement "Other.run();" [memberCall "Other" "run"]].

End Sample2.
(** ** Lists and strings: auxiliary facts *)

(** Induction on trees, with the hypothesis on every child. *)
Lemma Node_rect_children (P : Node -> Prop)
  (step : forall p k t ch, Forall P ch -> P (mkNode p k t ch)) :
  forall n, P n.
Proof.
  fix IH 1. intros [p k t ch]. apply step.
  induction ch as [|c ch IHch]; constructor; [apply IH | exact IHch].
Qed.

Lemma fold_left_invariant {A B : Type} (P : A -> Prop) (f : A -> B -> A)
    (l : list B) :
  Forall (fun b => forall a, P a -> P (f a b)) l ->
  forall a, P a -> P (fold_left f l a).
Proof.
  induction 1 as [|b l Hb _ IH]; intros a Ha; simpl; auto.
Qed.

Lemma fold_left_invariant_all {A B : Type} (P : A -> Prop) (f : A -> B -> A)
    (l : list B) :
  (forall a b, P a -> P (f a b)) ->
  forall a, P a -> P (fold_left f l a).
Proof.
  intros Hf. apply fold_left_invariant.
  apply Forall_forall. intros b _ a. apply Hf.
Qed.

Lemma find_app_first {A : Type} (f : A -> bool) (l1 l2 : list A) :
  find f (l1 ++ l2) =
  match find f l1 with
  | Some a => Some a
  | None => find f l2
  end.
Proof.
  induction l1 as [|a l1 IH]; simpl; [reflexivity|].
  destruct (f a); [reflexivity | exact IH].
Qed.

Lemma find_none_iff {A : Type} (f : A -> bool) (l : list A) :
  find f l = None <-> (forall a, In a l -> f a = false).
Proof.
  split.
  - intros H a Ha. exact (find_none f l H a Ha).
  - induction l as [|a l IH]; intros H; simpl; [reflexivity|].
    rewrite (H a (or_introl eq_refl)). apply IH.
    intros b Hb. apply H. right. exact Hb.
Qed.

Lemma startsWith_dot (c : ascii) (r : string) :
  Js.startsWith (String c r) "." = Ascii.eqb c ".".
Proof. simpl. apply andb_true_r. Qed.

(** Splitting at a separator that does not occur gives the string back. *)
Lemma split_without_dot (s : string) :
  Js.includes s "." = false -> Js.split "." s = [s].
Proof.
  induction s as [|c r IH]; intros H; [reflexivity|].
  change (Js.includes (String c r) ".")
    with (Js.startsWith (String c r) "." || Js.includes r ".") in H.
  rewrite startsWith_dot in H. apply orb_false_iff in H as [Hc Hr].
  simpl. rewrite Hc, (IH Hr). reflexivity.
Qed.

(** An identifier-like name, free of ["."], always ends up ['anonymous']. *)
Lemma functionName_without_dot (node : Node) :
  (forall nm, optional p_name node = Some nm ->
              Js.includes (getText nm) "." = false) ->
  functionName node = "anonymous".
Proof.
  intros H. unfold functionName.
  destruct (optional p_name node) as [nm|]; [|reflexivity].
  rewrite (split_without_dot _ (H nm eq_refl)). reflexivity.
Qed.

(** Whatever the instance held, the reset leaves a fresh one. *)
Lemma reset_fresh (this : TypeScriptAnalyzer) : reset this = resetState.
Proof. reflexivity. Qed.

(** ** What the walk preserves

    Every change to the instance goes through [addNode] or [addEdge]; a
    property of the instance they both keep is kept by the whole walk. *)

Section Preservation.

Variable P : TypeScriptAnalyzer -> Prop.
Hypothesis P_addNode :
  forall type name details s, P s -> P (snd (addNode type name details s)).
Hypothesis P_addEdge :
  forall source target type s, P s -> P (addEdge source target type s).

Lemma visitCallExpression_preserves (functionNodeId : string) (node : Node) :
  forall s, P s -> P (visitCallExpression functionNodeId node s).
Proof.
  induction node as [p k t ch IH] using Node_rect_children.
  intros s Hs. simpl.
  destruct (isCallExpression (mkNode p k t ch)).
  - destruct (isExternalPackageCall _); [exact Hs|].
    destruct (findVisitedNode _ ty_function s) as [v|].
    + apply (fold_left_invariant P); [exact IH|]. apply P_addEdge, Hs.
    + destruct (addNode ty_call _ None s) as [cid s1] eqn:E.
      apply (fold_left_invariant P); [exact IH|]. apply P_addEdge.
      change s1 with (snd (cid, s1)). rewrite <- E. apply P_addNode, Hs.
  - apply (fold_left_invariant P); [exact IH | exact Hs].
Qed.

Lemma analyzeFunctionBody_preserves (body : Node) (functionNodeId : string) :
  forall s, P s -> P (analyzeFunctionBody body functionNodeId s).
Proof. apply visitCallExpression_preserves. Qed.

Lemma visitDeclaration_preserves (node : Node) :
  forall s, P s -> P (visitDeclaration node s).
Proof.
  intros s Hs. unfold visitDeclaration.
  destruct (isFunctionDeclaration node).
  { destruct (addNode ty_function _ _ s) as [nid s1] eqn:E.
    assert (H1 : P s1)
      by (change s1 with (snd (nid, s1)); rewrite <- E; apply P_addNode, Hs).
    destruct (optional p_body node);
      [apply analyzeFunctionBody_preserves, H1 | exact H1]. }
  destruct (isClassDeclaration node).
  { destruct (addNode ty_class _ _ s) as [nid s1] eqn:E.
    assert (H1 : P s1)
      by (change s1 with (snd (nid, s1)); rewrite <- E; apply P_addNode, Hs).
    apply (fold_left_invariant_all P).
    - intros st member Hst.
      destruct (isMethodDeclaration member); [|exact Hst].
      destruct (addNode ty_function _ _ st) as [mid st1] eqn:E1.
      assert (H2 : P st1)
        by (change st1 with (snd (mid, st1)); rewrite <- E1;
            apply P_addNode, Hst).
      destruct (optional p_body member);
        [apply analyzeFunctionBody_preserves|]; apply P_addEdge, H2.
    - apply (fold_left_invariant_all P); [|exact H1].
      intros st clause Hst.
      apply (fold_left_invariant_all P); [|exact Hst].
      intros st' type Hst'.
      destruct (addNode ty_class _ _ st') as [bid st1] eqn:E1.
      apply P_addEdge.
      change st1 with (snd (bid, st1)); rewrite <- E1; apply P_addNode, Hst'. }
  destruct (isInterfaceDeclaration node); [|exact Hs].
  destruct (addNode ty_interface _ _ s) as [nid s1] eqn:E.
  assert (H1 : P s1)
    by (change s1 with (snd (nid, s1)); rewrite <- E; apply P_addNode, Hs).
  apply (fold_left_invariant_all P); [|exact H1].
  intros st clause Hst.
  apply (fold_left_invariant_all P); [|exact Hst].
  intros st' type Hst'.
  destruct (addNode ty_interface _ _ st') as [bid st1] eqn:E1.
  apply P_addEdge.
  change st1 with (snd (bid, st1)); rewrite <- E1; apply P_addNode, Hst'.
Qed.

Lemma visitNode_preserves (node : Node) :
  forall s, P s -> P (visitNode node s).
Proof.
  induction node as [p k t ch IH] using Node_rect_children.
  intros s Hs. simpl.
  apply (fold_left_invariant P); [exact IH|].
  apply visitDeclaration_preserves, Hs.
Qed.

(** A property of the reset instance that both operations keep holds
    of the instance [analyze] leaves behind. *)
Lemma analyze_establishes (this : TypeScriptAnalyzer) (sourceFile : Node) :
  P resetState -> P (snd (analyze this sourceFile)).
Proof. intros H. apply visitNode_preserves. rewrite reset_fresh. exact H. Qed.

End Preservation.

(** ** Identity index *)

Lemma NodeType_eqb_eq (a b : NodeType) : NodeType_eqb a b = true <-> a = b.
Proof. destruct a, b; simpl; split; intros H; congruence. Qed.

Lemma findVisitedNode_none_key (name : string) (type : NodeType)
    (s : TypeScriptAnalyzer) :
  findVisitedNode name type s = None ->
  ~ In (name, type) (map visitedKey (visitedNodes s)).
Proof.
  unfold findVisitedNode. intros H Hin.
  apply in_map_iff in Hin as [v [Hk Hv]].
  pose proof (find_none _ _ H v Hv) as Hf. simpl in Hf.
  unfold visitedKey in Hk. injection Hk as Hn Ht.
  rewrite Hn, Ht, String.eqb_refl in Hf. simpl in Hf.
  destruct type; discriminate.
Qed.

Lemma addNode_existing (type : NodeType) (name : string)
    (details : option string) (s : TypeScriptAnalyzer) (v : VisitedNode.t) :
  findVisitedNode name type s = Some v ->
  addNode type name details s = (VisitedNode.id v, s).
Proof. intros H. unfold addNode. rewrite H. reflexivity. Qed.

(** What [addNode] does for a key the index does not hold. *)
Lemma addNode_fresh (type : NodeType) (name : string)
    (details : option string) (s : TypeScriptAnalyzer) :
  findVisitedNode name type s = None ->
  let id := "node-" ++ Js.ofNumber (N.succ (nodeCounter s)) in
  let s' := snd (addNode type name details s) in
  fst (addNode type name details s) = id
  /\ nodes s' = (nodes s ++
       [CodeNode.mk id type name details (currentX s) (currentY s)])%list
  /\ visitedNodes s' = (visitedNodes s ++ [VisitedNode.mk id name type])%list
  /\ edges s' = edges s
  /\ (currentX s', currentY s') =
       (if (500 <? currentY s + 100)%Z then ((currentX s + 250)%Z, 0%Z)
        else (currentX s, (currentY s + 100)%Z)).
Proof.
  intros H. unfold addNode. rewrite H. simpl.
  destruct (500 <? currentY s + 100)%Z; simpl; repeat split; reflexivity.
Qed.

Lemma identityIndexed_addNode (type : NodeType) (name : string)
    (details : option string) (s : TypeScriptAnalyzer) :
  identityIndexed s -> identityIndexed (snd (addNode type name details s)).
Proof.
  intros [Hsync Hnd].
  destruct (findVisitedNode name type s) as [v|] eqn:Hf.
  - rewrite (addNode_existing _ _ _ _ _ Hf). split; assumption.
  - destruct (addNode_fresh type name details s Hf) as (_ & Hn & Hv & _).
    unfold identityIndexed. rewrite Hn, Hv, !map_app. simpl.
    split.
    + rewrite Hsync. reflexivity.
    + apply NoDup_app; [exact Hnd | repeat constructor; intros [] |].
      intros k Hk [Hk'|[]]. subst k.
      apply (findVisitedNode_none_key _ _ _ Hf).
      rewrite Hsync. exact Hk.
Qed.

Lemma identityIndexed_addEdge (source target : string) (type : option EdgeType)
    (s : TypeScriptAnalyzer) :
  identityIndexed s -> identityIndexed (addEdge source target type s).
Proof. intros H. exact H. Qed.

Lemma identityIndexed_reset : identityIndexed resetState.
Proof. split; [reflexivity | constructor]. Qed.

(** ** Layout cursor *)

Lemma cursorAt_step (k : nat) :
  (let '(x, y) := cursorAt k in
   if 500 <? y + 100 then (x + 250, 0) else (x, y + 100))%Z = cursorAt (S k).
Proof.
  unfold cursorAt. rewrite Nat2Z.inj_succ.
  set (z := Z.of_nat k). assert (0 <= z)%Z by (subst z; lia).
  destruct (500 <? 100 * (z mod 6) + 100)%Z eqn:E.
  - apply Z.ltb_lt in E.
    f_equal; Z.to_euclidean_division_equations; lia.
  - apply Z.ltb_ge in E.
    f_equal; Z.to_euclidean_division_equations; lia.
Qed.

Lemma laidOut_addNode (type : NodeType) (name : string)
    (details : option string) (s : TypeScriptAnalyzer) :
  laidOut s -> laidOut (snd (addNode type name details s)).
Proof.
  intros [Hcur Hpos].
  destruct (findVisitedNode name type s) as [v|] eqn:Hf.
  - rewrite (addNode_existing _ _ _ _ _ Hf). split; assumption.
  - destruct (addNode_fresh type name details s Hf) as (_ & Hn & _ & _ & Hc).
    unfold laidOut. rewrite Hn, Hc, last_length. split.
    + pose proof (cursorAt_step (length (nodes s))) as Hstep.
      rewrite <- Hcur in Hstep. exact Hstep.
    + intros k n Hk.
      destruct (Nat.lt_ge_cases k (length (nodes s))) as [Hlt|Hge].
      * rewrite nth_error_app1 in Hk by exact Hlt. apply Hpos, Hk.
      * rewrite nth_error_app2 in Hk by exact Hge.
        destruct (k - length (nodes s)) as [|j] eqn:Hj.
        -- simpl in Hk. injection Hk as <-. simpl.
           replace k with (length (nodes s)) by lia. exact Hcur.
        -- destruct j; discriminate.
Qed.

Lemma laidOut_addEdge (source target : string) (type : option EdgeType)
    (s : TypeScriptAnalyzer) :
  laidOut s -> laidOut (addEdge source target type s).
Proof. intros H. exact H. Qed.

Lemma laidOut_reset : laidOut resetState.
Proof.
  split; [reflexivity|]. intros [|k] n H; discriminate.
Qed.

(** In every run the [k]-th node created sits at [cursorAt k]. *)
Lemma analyze_positions (this : TypeScriptAnalyzer) (sourceFile : Node)
    (k : nat) (n : CodeNode.t) :
  nth_error (res_nodes (fst (analyze this sourceFile))) k = Some n ->
  (CodeNode.x n, CodeNode.y n) = cursorAt k.
Proof.
  pose proof (analyze_establishes laidOut laidOut_addNode laidOut_addEdge
                this sourceFile laidOut_reset) as [_ H].
  apply H.
Qed.

(** ** Handler analyzer: the search for the first class *)

Lemma visitHandler_firstClass (handlerNode : Handler.t) (node : Node) :
  visitHandler handlerNode node =
  option_map (fun c => [visitClass handlerNode c]) (firstClassDeclaration node).
Proof.
  unfold firstClassDeclaration.
  induction node as [p k t ch IH] using Node_rect_children.
  simpl. destruct (isClassDeclaration (mkNode p k t ch)); [reflexivity|].
  induction IH as [|c rest Hc _ IHrest]; [reflexivity|].
  simpl. rewrite find_app_first, Hc.
  destruct (find isClassDeclaration (preorder c)); [reflexivity | exact IHrest].
Qed.

Lemma visitClass_withId (uuid : string) (handlerNode : Handler.t) (node : Node) :
  visitClass (withId uuid handlerNode) node =
  withId uuid (visitClass handlerNode node).
Proof. reflexivity. Qed.

Lemma visitHandler_withId (uuid : string) (handlerNode : Handler.t)
    (node : Node) :
  visitHandler (withId uuid handlerNode) node =
  option_map (map (withId uuid)) (visitHandler handlerNode node).
Proof.
  rewrite !visitHandler_firstClass.
  destruct (firstClassDeclaration node); reflexivity.
Qed.

(** ** Call discovery *)

Lemma findVisitedNode_some (name : string) (type : NodeType)
    (s : TypeScriptAnalyzer) (v : VisitedNode.t) :
  findVisitedNode name type s = Some v ->
  In v (visitedNodes s) /\ VisitedNode.name v = name
  /\ VisitedNode.type v = type.
Proof.
  unfold findVisitedNode. intros H.
  apply find_some in H as [Hin Hp].
  apply andb_true_iff in Hp as [Hn Ht].
  apply String.eqb_eq in Hn. apply NodeType_eqb_eq in Ht. auto.
Qed.

Lemma fold_left_fixed {A B : Type} (f : A -> B -> A) (l : list B) :
  Forall (fun b => forall a, f a b = a) l ->
  forall a, fold_left f l a = a.
Proof.
  induction 1 as [|b l Hb _ IH]; intros a; simpl; [reflexivity|].
  rewrite Hb. apply IH.
Qed.


Lemma visitCallExpression_external (functionNodeId : string) (node : Node)
    (s : TypeScriptAnalyzer) :
  isCallExpression node = true ->
  isExternalPackageCall (getText (mandatory p_expression node)) = true ->
  visitCallExpression functionNodeId node s = s.
Proof.
  destruct node as [p k t ch]. intros Hk He. simpl. rewrite Hk, He.
  reflexivity.
Qed.


(** What a kept call leaves behind: an index entry of the callee's name,
    of kind function or call, and one more ['calls'] edge to it. *)
Lemma recordCall_spec (functionNodeId calledFunction : string)
    (s : TypeScriptAnalyzer) :
  let s' := recordCall functionNodeId calledFunction s in
  exists v,
    In v (visitedNodes s')
    /\ VisitedNode.name v = calledFunction
    /\ (VisitedNode.type v = ty_function \/ VisitedNode.type v = ty_call)
    /\ edges s' = (edges s ++
         [edgeBetween functionNodeId (VisitedNode.id v) e_calls])%list
    /\ (findVisitedNode calledFunction ty_function s = None ->
        findVisitedNode calledFunction ty_call s = None ->
        exists n, nodes s' = (nodes s ++ [n])%list
                  /\ CodeNode.label n = calledFunction
                  /\ CodeNode.type n = ty_call
                  /\ CodeNode.id n = VisitedNode.id v)
    /\ recordCall functionNodeId calledFunction s'
       = addEdge functionNodeId (VisitedNode.id v) (Some e_calls) s'.
Proof.
  unfold recordCall.
  destruct (findVisitedNode calledFunction ty_function s) as [v|] eqn:Hfn.
  - destruct (findVisitedNode_some _ _ _ _ Hfn) as (Hin & Hname & Hty).
    exists v. simpl. repeat split; auto.
    + discriminate.
    + unfold findVisitedNode in *. simpl. rewrite Hfn. reflexivity.
  - destruct (findVisitedNode calledFunction ty_call s) as [v|] eqn:Hcall.
    + destruct (findVisitedNode_some _ _ _ _ Hcall) as (Hin & Hname & Hty).
      rewrite (addNode_existing _ _ _ _ _ Hcall).
      exists v. simpl. repeat split; auto.
      * discriminate.
      * unfold findVisitedNode in *. simpl. rewrite Hfn.
        unfold addNode, findVisitedNode. simpl. rewrite Hcall. reflexivity.
    + destruct (addNode_fresh ty_call calledFunction None s Hcall)
        as (Hid & Hn & Hv & He & _).
      destruct (addNode ty_call calledFunction None s) as [cid s1].
      simpl in Hid, Hn, Hv, He. subst cid.
      set (id := "node-" ++ Js.ofNumber (N.succ (nodeCounter s))) in *.
      exists (VisitedNode.mk id calledFunction ty_call). simpl.
      repeat split; auto.
      * rewrite Hv. apply in_or_app. right. left. reflexivity.
      * rewrite He. reflexivity.
      * intros _ _. eexists. split; [exact Hn|]. simpl. auto.
      * unfold findVisitedNode in *. simpl. rewrite Hv, find_app_first, Hfn.
        simpl. rewrite String.eqb_refl. simpl.
        unfold addNode, findVisitedNode. simpl.
        rewrite Hv, find_app_first, Hcall. simpl.
        rewrite String.eqb_refl. reflexivity.
Qed.


(** *** The lists of the instance only ever grow *)

Lemma grows_refl (s : TypeScriptAnalyzer) : grows s s.
Proof. repeat split; exists []; symmetry; apply app_nil_r. Qed.

Lemma grows_addNode (s0 : TypeScriptAnalyzer) (type : NodeType)
    (name : string) (details : option string) (s : TypeScriptAnalyzer) :
  grows s0 s -> grows s0 (snd (addNode type name details s)).
Proof.
  intros (Hn & He & Hv).
  destruct (findVisitedNode name type s) as [v|] eqn:Hf.
  - rewrite (addNode_existing _ _ _ _ _ Hf). repeat split; assumption.
  - destruct (addNode_fresh type name details s Hf) as (_ & Hn' & Hv' & He' & _).
    destruct Hn as [ln Hn], He as [le He], Hv as [lv Hv].
    unfold grows. rewrite Hn', Hv', He', Hn, He, Hv, <- !app_assoc.
    repeat split; eexists; reflexivity.
Qed.

Lemma grows_addEdge (s0 : TypeScriptAnalyzer) (source target : string)
    (type : option EdgeType) (s : TypeScriptAnalyzer) :
  grows s0 s -> grows s0 (addEdge source target type s).
Proof.
  intros (Hn & [le He] & Hv). unfold grows. simpl.
  rewrite He, <- app_assoc. repeat split; try assumption.
  eexists; reflexivity.
Qed.

(** A kept call is recorded first; what the walk finds below it comes
    after. *)
Lemma visitCallExpression_kept_grows (functionNodeId : string) (node : Node)
    (s : TypeScriptAnalyzer) :
  isCallExpression node = true ->
  isExternalPackageCall (getText (mandatory p_expression node)) = false ->
  grows (recordCall functionNodeId (getText (mandatory p_expression node)) s)
        (visitCallExpression functionNodeId node s).
Proof.
  destruct node as [p k t ch]. intros Hk He.
  simpl. rewrite Hk, He. unfold recordCall.
  assert (Hfold : forall a,
    grows a (fold_left (fun st child =>
                          visitCallExpression functionNodeId child st) ch a)).
  { intros a. apply (fold_left_invariant_all (grows a)); [|apply grows_refl].
    intros st child. apply (visitCallExpression_preserves (grows a)).
    - apply grows_addNode.
    - apply grows_addEdge. }
  destruct (findVisitedNode _ ty_function s); [apply Hfold|].
  destruct (addNode ty_call _ None s). apply Hfold.
Qed.

(** The node of a function declaration is created, or found, under the
    name [functionName] gives; all else the walk adds comes after it. *)
Lemma visitNode_function_grows (node : Node) (s : TypeScriptAnalyzer) :
  isFunctionDeclaration node = true ->
  grows (snd (addNode ty_function (functionName node)
                (Some (functionDetails node)) s))
        (visitNode node s).
Proof.
  intros Hk. destruct node as [p k t ch]. simpl.
  set (node := mkNode p k t ch) in *.
  set (s1 := snd (addNode ty_function (functionName node)
                    (Some (functionDetails node)) s)).
  apply (fold_left_invariant_all (grows s1)).
  - intros st child. apply (visitNode_preserves (grows s1)).
    + apply grows_addNode.
    + apply grows_addEdge.
  - unfold visitDeclaration. rewrite Hk. subst s1.
    destruct (addNode ty_function _ _ s) as [nid s1]. simpl.
    destruct (optional p_body node); [|apply grows_refl].
    apply (analyzeFunctionBody_preserves (grows s1));
      [apply grows_addNode | apply grows_addEdge | apply grows_refl].
Qed.

(** ** Method complexity *)

(** With a body the call returns, and the complexity is at least 1. *)
Lemma visitComplexity_monotone (node : Node) :
  forall c, (complexity c <= complexity (visitComplexity node c))%Z.
Proof.
  induction node as [p k t ch IH] using Node_rect_children.
  intros c. simpl.
  set (c3 := if isStatement _ && negb _ then _ else _).
  assert (H3 : (complexity c <= complexity c3)%Z).
  { subst c3.
    repeat match goal with
           | |- context [if ?b then _ else _] => destruct b; simpl
           end; lia. }
  assert (H4 : (complexity c <=
                complexity (fold_left (fun st child => visitComplexity child st)
                                      ch c3))%Z).
  { apply (fold_left_invariant (fun st => (complexity c <= complexity st)%Z));
      [|exact H3].
    eapply Forall_impl; [|exact IH].
    intros n Hn a Ha. specialize (Hn a). lia. }
  destruct (nests _); simpl; exact H4.
Qed.

Lemma analyzeMethodComplexity_with_body (method body : Node) :
  optional p_body method = Some body ->
  exists m, analyzeMethodComplexity method = Normal m
            /\ (1 <= cyclomaticComplexity m)%Z.
Proof.
  intros H. unfold analyzeMethodComplexity. rewrite H.
  eexists. split; [reflexivity|]. simpl.
  apply (visitComplexity_monotone body
           {| complexity := 1; statements := 0; maxDepth := 0;
              currentDepth := 0 |}).
Qed.

(** ** Repeated calls of one callee *)







Section OneCallee.

Variables functionNodeId callee : string.




End OneCallee.

(** ** Further properties of the graph extractor *)

(** *** Identifiers *)

Lemma ofNumber_inj (a b : N) : Js.ofNumber a = Js.ofNumber b -> a = b.
Proof.
  unfold Js.ofNumber. intros H.
  assert (Hnil : forall n, N.to_uint n <> Decimal.Nil).
  { intros [|p]; [discriminate | apply DecimalPos.Unsigned.to_uint_nonnil]. }
  apply DecimalN.Unsigned.to_uint_inj.
  pose proof (NilZero.usu _ (Hnil a)) as Ha.
  pose proof (NilZero.usu _ (Hnil b)) as Hb.
  rewrite H, Hb in Ha. injection Ha as Ha. symmetry. exact Ha.
Qed.

Lemma nthNodeId_inj (a b : nat) : nthNodeId a = nthNodeId b -> a = b.
Proof.
  unfold nthNodeId. intros H. simpl in H. injection H as H.
  apply Nat2N.inj, ofNumber_inj, H.
Qed.

Lemma NoDup_map_injective {A B : Type} (f : A -> B) (l : list A) :
  (forall a b, f a = f b -> a = b) -> NoDup l -> NoDup (map f l).
Proof.
  intros Hf. induction 1 as [|a l Ha _ IH]; simpl; constructor; [|exact IH].
  intros Hin. apply in_map_iff in Hin as (b & Hb & Hbl).
  apply Hf in Hb. subst b. exact (Ha Hbl).
Qed.

Lemma numbered_addNode (type : NodeType) (name : string)
    (details : option string) (s : TypeScriptAnalyzer) :
  numbered s -> numbered (snd (addNode type name details s)).
Proof.
  intros [Hc Hids].
  destruct (findVisitedNode name type s) as [v|] eqn:Hf.
  - rewrite (addNode_existing _ _ _ _ _ Hf). split; assumption.
  - destruct (addNode_fresh type name details s Hf) as (_ & Hn & _).
    unfold numbered, nodeIds in *. rewrite Hn, last_length. split.
    + unfold addNode. rewrite Hf. simpl.
      destruct (500 <? currentY s + 100)%Z; simpl;
        rewrite Hc; symmetry; apply Nat2N.inj_succ.
    + rewrite map_app, Hids, seq_S, map_app. simpl.
      unfold nthNodeId. rewrite Hc, Nat2N.inj_succ. reflexivity.
Qed.

Lemma numbered_addEdge (source target : string) (type : option EdgeType)
    (s : TypeScriptAnalyzer) :
  numbered s -> numbered (addEdge source target type s).
Proof. intros H. exact H. Qed.

Lemma numbered_reset : numbered resetState.
Proof. split; reflexivity. Qed.

(** *** Edges and the nodes they join *)

Lemma grows_nodeIds (s s' : TypeScriptAnalyzer) (a : string) :
  grows s s' -> In a (nodeIds s) -> In a (nodeIds s').
Proof.
  intros ([more Hn] & _) H. unfold nodeIds in *.
  rewrite Hn, map_app. apply in_or_app. left. exact H.
Qed.

Lemma addNode_grows (type : NodeType) (name : string)
    (details : option string) (s : TypeScriptAnalyzer) :
  grows s (snd (addNode type name details s)).
Proof. apply grows_addNode, grows_refl. Qed.

Lemma addNode_linked (type : NodeType) (name : string)
    (details : option string) (s : TypeScriptAnalyzer) :
  linked s ->
  forall id s1, addNode type name details s = (id, s1) ->
  linked s1 /\ In id (nodeIds s1) /\ grows s s1.
Proof.
  intros [Hsync Hedges] id s1 E.
  pose proof (addNode_grows type name details s) as Hg.
  rewrite E in Hg. simpl in Hg.
  destruct (findVisitedNode name type s) as [v|] eqn:Hf.
  - rewrite (addNode_existing _ _ _ _ _ Hf) in E. injection E as <- <-.
    split; [split; assumption|]. split; [|exact Hg].
    rewrite <- Hsync. apply in_map.
    apply (findVisitedNode_some _ _ _ _ Hf).
  - destruct (addNode_fresh type name details s Hf)
      as (Hid & Hn & Hv & He & _).
    rewrite E in Hid, Hn, Hv, He. simpl in Hid, Hn, Hv, He.
    assert (Hids : nodeIds s1 = (nodeIds s ++ [id])%list).
    { unfold nodeIds. rewrite Hn, map_app, Hid. reflexivity. }
    split; [split|split; [|exact Hg]].
    + rewrite Hv, map_app, Hsync, Hids, Hid. reflexivity.
    + intros e He'. rewrite He in He'. destruct (Hedges e He') as [H1 H2].
      split; apply (grows_nodeIds s s1); assumption.
    + rewrite Hids. apply in_or_app. right. left. reflexivity.
Qed.

Lemma addEdge_linked (source target : string) (type : option EdgeType)
    (s : TypeScriptAnalyzer) :
  linked s -> In source (nodeIds s) -> In target (nodeIds s) ->
  linked (addEdge source target type s).
Proof.
  intros [Hsync Hedges] Hs Ht. split; [exact Hsync|].
  intros e He. simpl in He. apply in_app_or in He as [He|[<-|[]]].
  - apply Hedges, He.
  - split; assumption.
Qed.

(** An identifier of a graph node stays one through the whole walk. *)
Lemma visitCallExpression_keeps (a functionNodeId : string) (node : Node)
    (s : TypeScriptAnalyzer) :
  In a (nodeIds s) ->
  In a (nodeIds (visitCallExpression functionNodeId node s)).
Proof.
  apply (visitCallExpression_preserves (fun st => In a (nodeIds st))).
  - intros type name details st. apply grows_nodeIds, addNode_grows.
  - intros source target type st H. exact H.
Qed.

Lemma visitCallExpression_linked (functionNodeId : string) (node : Node) :
  forall s, linked s /\ In functionNodeId (nodeIds s) ->
            linked (visitCallExpression functionNodeId node s)
            /\ In functionNodeId
                  (nodeIds (visitCallExpression functionNodeId node s)).
Proof.
  induction node as [p k t ch IH] using Node_rect_children.
  intros s [Hl Hf]. simpl.
  set (Q := fun st => linked st /\ In functionNodeId (nodeIds st)).
  destruct (isCallExpression (mkNode p k t ch)).
  - destruct (isExternalPackageCall _); [split; assumption|].
    destruct (findVisitedNode _ ty_function s) as [v|] eqn:Hv.
    + apply (fold_left_invariant Q); [exact IH|].
      split; [|exact Hf].
      apply addEdge_linked; [exact Hl | exact Hf |].
      destruct Hl as [Hsync _]. rewrite <- Hsync. apply in_map.
      apply (findVisitedNode_some _ _ _ _ Hv).
    + destruct (addNode ty_call _ None s) as [cid s1] eqn:E.
      destruct (addNode_linked _ _ _ _ Hl _ _ E) as (Hl1 & Hc & Hg).
      apply (fold_left_invariant Q); [exact IH|].
      pose proof (grows_nodeIds _ _ _ Hg Hf) as Hf1.
      split; [|exact Hf1].
      apply addEdge_linked; assumption.
  - apply (fold_left_invariant Q); [exact IH|]. split; assumption.
Qed.

(** One entry of a heritage clause: the base is resolved, the edge
    added. *)
Lemma heritage_step_linked (nodeId : string) (type : NodeType) (base : string)
    (edgeType : option EdgeType) (st : TypeScriptAnalyzer) :
  linked st /\ In nodeId (nodeIds st) ->
  linked (let '(baseId, st1) := addNode type base None st in
          addEdge nodeId baseId edgeType st1)
  /\ In nodeId (nodeIds (let '(baseId, st1) := addNode type base None st in
                         addEdge nodeId baseId edgeType st1)).
Proof.
  intros [Hl Hn].
  destruct (addNode type base None st) as [bid st1] eqn:E.
  destruct (addNode_linked _ _ _ _ Hl _ _ E) as (Hl1 & Hb & Hg).
  pose proof (grows_nodeIds _ _ _ Hg Hn) as Hn1.
  split; [|exact Hn1]. apply addEdge_linked; assumption.
Qed.

Lemma visitDeclaration_linked (node : Node) (s : TypeScriptAnalyzer) :
  linked s -> linked (visitDeclaration node s).
Proof.
  intros Hl. unfold visitDeclaration.
  destruct (isFunctionDeclaration node).
  { destruct (addNode ty_function _ _ s) as [nid s1] eqn:E.
    destruct (addNode_linked _ _ _ _ Hl _ _ E) as (Hl1 & Hn & _).
    destruct (optional p_body node); [|exact Hl1].
    apply visitCallExpression_linked. split; assumption. }
  destruct (isClassDeclaration node).
  { destruct (addNode ty_class _ _ s) as [nid s1] eqn:E.
    destruct (addNode_linked _ _ _ _ Hl _ _ E) as (Hl1 & Hn & _).
    set (Q := fun st => linked st /\ In nid (nodeIds st)).
    match goal with |- linked ?x => cut (Q x); [intros [H _]; exact H|] end.
    apply (fold_left_invariant_all Q).
    - intros st member [Hst Hnid].
      destruct (isMethodDeclaration member); [|split; assumption].
      destruct (addNode ty_function _ _ st) as [mid st1] eqn:E1.
      destruct (addNode_linked _ _ _ _ Hst _ _ E1) as (Hst1 & Hm & Hg).
      pose proof (grows_nodeIds _ _ _ Hg Hnid) as Hnid1.
      assert (Hst2 : linked (addEdge nid mid None st1))
        by (apply addEdge_linked; assumption).
      destruct (optional p_body member) as [body|]; [|split; assumption].
      split.
      + apply visitCallExpression_linked. split; assumption.
      + apply visitCallExpression_keeps. exact Hnid1.
    - apply (fold_left_invariant_all Q); [|split; assumption].
      intros st clause Hst.
      apply (fold_left_invariant_all Q); [|exact Hst].
      intros st' type Hst'.
      apply (heritage_step_linked nid ty_class _ _ st' Hst'). }
  destruct (isInterfaceDeclaration node); [|exact Hl].
  destruct (addNode ty_interface _ _ s) as [nid s1] eqn:E.
  destruct (addNode_linked _ _ _ _ Hl _ _ E) as (Hl1 & Hn & _).
  set (Q := fun st => linked st /\ In nid (nodeIds st)).
  match goal with |- linked ?x => cut (Q x); [intros [H _]; exact H|] end.
  apply (fold_left_invariant_all Q); [|split; assumption].
  intros st clause Hst.
  apply (fold_left_invariant_all Q); [|exact Hst].
  intros st' type Hst'.
  apply (heritage_step_linked nid ty_interface _ _ st' Hst').
Qed.

Lemma visitNode_linked (node : Node) :
  forall s, linked s -> linked (visitNode node s).
Proof.
  induction node as [p k t ch IH] using Node_rect_children.
  intros s Hs. simpl.
  apply (fold_left_invariant linked); [exact IH|].
  apply visitDeclaration_linked, Hs.
Qed.

Lemma linked_reset : linked resetState.
Proof. split; [reflexivity|]. intros e []. Qed.

(** *** A walk that meets no declaration *)

Lemma visitDeclaration_other (node : Node) (s : TypeScriptAnalyzer) :
  isDeclaration node = false -> visitDeclaration node s = s.
Proof.
  unfold isDeclaration, visitDeclaration. intros H.
  apply orb_false_iff in H as [H Hi]. apply orb_false_iff in H as [Hf Hc].
  rewrite Hf, Hc, Hi. reflexivity.
Qed.

Lemma visitNode_without_declarations (node : Node) :
  forallb (fun n => negb (isDeclaration n)) (preorder node) = true ->
  forall s, visitNode node s = s.
Proof.
  induction node as [p k t ch IH] using Node_rect_children.
  intros H s. simpl in H. apply andb_true_iff in H as [Hn Hch].
  apply negb_true_iff in Hn. simpl.
  rewrite (visitDeclaration_other _ s Hn). clear Hn.
  apply fold_left_fixed.
  induction IH as [|c rest Hc _ IHrest]; constructor;
    simpl in Hch; rewrite forallb_app in Hch;
    apply andb_true_iff in Hch as [Hhead Hrest].
  - intros a. apply Hc, Hhead.
  - apply IHrest, Hrest.
Qed.

(** *** Prefixes *)

Lemma startsWith_app (p r : string) : Js.startsWith (p ++ r) p = true.
Proof.
  induction p as [|c p IH]; [reflexivity|].
  simpl. rewrite Ascii.eqb_refl. exact IH.
Qed.

(** *** Positions *)

Lemma map_by_index {A B : Type} (f : A -> B) (l : list A) :
  forall g : nat -> B,
  (forall k a, nth_error l k = Some a -> f a = g k) ->
  map f l = map g (seq 0 (length l)).
Proof.
  induction l as [|a l IH]; intros g H; [reflexivity|].
  simpl. rewrite (H 0 a eq_refl). f_equal.
  rewrite <- seq_shift, map_map.
  apply IH. intros k b Hk. apply (H (S k) b Hk).
Qed.

Lemma cursorAt_inj (a b : nat) : cursorAt a = cursorAt b -> a = b.
Proof.
  unfold cursorAt. intros H.
  pose proof (f_equal fst H) as Hx. pose proof (f_equal snd H) as Hy.
  cbn [fst snd] in Hx, Hy. clear H.
  apply Nat2Z.inj.
  assert (0 <= Z.of_nat a)%Z by lia. assert (0 <= Z.of_nat b)%Z by lia.
  Z.to_euclidean_division_equations. lia.
Qed.

Lemma cursorAt_bounds (k : nat) :
  (0 <= fst (cursorAt k) /\ 0 <= snd (cursorAt k) <= 500)%Z.
Proof.
  unfold cursorAt. cbn [fst snd].
  assert (0 <= Z.of_nat k)%Z by lia.
  Z.to_euclidean_division_equations. lia.
Qed.

(** ** Further properties of the handler analyzer *)

(** *** Method calls *)

Lemma visitMethodCalls_children (toLowerCase : string -> string)
    (ch : list Node) :
  Forall (fun c => forall calls,
            visitMethodCalls toLowerCase c calls
            = MethodCalls.mk
                (MethodCalls.internal calls ++
                   map callAction
                       (filter (recordedInternal toLowerCase) (preorder c)))
                (MethodCalls.external calls ++
                   map externalEntry
                       (filter (recordedExternal toLowerCase) (preorder c))))
         ch ->
  forall calls,
    fold_left (fun st child => visitMethodCalls toLowerCase child st) ch calls
    = MethodCalls.mk
        (MethodCalls.internal calls ++
           map callAction
               (filter (recordedInternal toLowerCase) (flat_map preorder ch)))
        (MethodCalls.external calls ++
           map externalEntry
               (filter (recordedExternal toLowerCase) (flat_map preorder ch))).
Proof.
  induction 1 as [|c rest Hc _ IH]; intros calls.
  - destruct calls. simpl. rewrite !app_nil_r. reflexivity.
  - simpl. rewrite Hc, IH. simpl.
    rewrite !filter_app, !map_app, !app_assoc. reflexivity.
Qed.

Lemma visitMethodCalls_spec (toLowerCase : string -> string) (node : Node) :
  forall calls,
    visitMethodCalls toLowerCase node calls
    = MethodCalls.mk
        (MethodCalls.internal calls ++
           map callAction
               (filter (recordedInternal toLowerCase) (preorder node)))
        (MethodCalls.external calls ++
           map externalEntry
               (filter (recordedExternal toLowerCase) (preorder node))).
Proof.
  induction node as [p k t ch IH] using Node_rect_children.
  intros calls.
  change (visitMethodCalls toLowerCase (mkNode p k t ch) calls)
    with (fold_left (fun st child => visitMethodCalls toLowerCase child st) ch
            (if isCallExpression (mkNode p k t ch) then
               if isPropertyAccessExpression
                    (mandatory p_expression (mkNode p k t ch)) then
                 if isExternalCall toLowerCase (callTarget (mkNode p k t ch))
                 then MethodCalls.mk
                        (MethodCalls.internal calls)
                        (MethodCalls.external calls ++
                           [externalEntry (mkNode p k t ch)])
                 else MethodCalls.mk
                        (MethodCalls.internal calls ++
                           [callAction (mkNode p k t ch)])
                        (MethodCalls.external calls)
               else calls
             else calls)).
  rewrite (visitMethodCalls_children toLowerCase ch IH).
  change (preorder (mkNode p k t ch))
    with (mkNode p k t ch :: flat_map preorder ch).
  cbn [filter]. unfold recordedInternal at 2, recordedExternal at 2, isMemberCall.
  destruct (isCallExpression (mkNode p k t ch)); [|reflexivity].
  destruct (isPropertyAccessExpression _); [|reflexivity].
  destruct (isExternalCall toLowerCase _); simpl;
    rewrite <- ?app_assoc; reflexivity.
Qed.

(** *** Constructor parameters *)

Lemma declaredType_eq (param : Node) :
  declaredType param
  = match option_map getText (optional p_type param) with
    | Some type => if String.eqb type EmptyString then None else Some type
    | None => None
    end.
Proof.
  unfold declaredType.
  destruct (option_map getText (optional p_type param)) as [[|c r]|];
    reflexivity.
Qed.

Lemma parameterType_eq (param : Node) (type : string) :
  option_map getText (optional p_type param) = Some type ->
  parameterType param = type.
Proof.
  unfold parameterType, mandatory.
  destruct (optional p_type param); simpl; intros H;
    [injection H as H; exact H | discriminate].
Qed.

Lemma analyzeConstructor_fold (params : list Node) :
  forall acc,
    fold_left (fun dependencies param =>
      match option_map getText (optional p_type param) with
      | Some type =>
          if String.eqb type EmptyString then dependencies
          else if Js.endsWith type "Service" then
            {| dep_services := dep_services dependencies ++ [type];
               dep_databases := dep_databases dependencies;
               dep_external := dep_external dependencies |}
          else if Js.includes type "Database" then
            {| dep_services := dep_services dependencies;
               dep_databases := dep_databases dependencies ++
                 [(getText (mandatory p_name param),
                   [SELECT; INSERT; UPDATE; DELETE])];
               dep_external := dep_external dependencies |}
          else dependencies
      | None => dependencies
      end)%list params acc
    = {| dep_services :=
           dep_services acc ++
           map parameterType (filter isServiceParameter params);
         dep_databases :=
           dep_databases acc ++
           map (fun param => (parameterName param, allActions))
               (filter isDatabaseParameter params);
         dep_external := dep_external acc |}%list.
Proof.
  induction params as [|param params IH]; intros acc.
  - destruct acc. simpl. rewrite !app_nil_r. reflexivity.
  - cbn [fold_left filter]. rewrite IH. clear IH.
    unfold isServiceParameter, isDatabaseParameter.
    rewrite declaredType_eq.
    destruct (option_map getText (optional p_type param)) as [type|] eqn:Ho;
      [|reflexivity].
    pose proof (parameterType_eq _ _ Ho) as Hty.
    destruct (String.eqb type EmptyString); [reflexivity|].
    destruct (Js.endsWith type "Service");
      [|destruct (Js.includes type "Database")];
      cbn [negb andb map dep_services dep_databases dep_external];
      rewrite <- ?app_assoc, ?Hty; reflexivity.
Qed.

Lemma analyzeConstructor_spec (node : Node) :
  analyzeConstructor node
  = {| dep_services :=
         map parameterType (filter isServiceParameter (array p_parameters node));
       dep_databases :=
         map (fun param => (parameterName param, allActions))
             (filter isDatabaseParameter (array p_parameters node));
       dep_external := [] |}.
Proof.
  unfold analyzeConstructor. rewrite analyzeConstructor_fold. reflexivity.
Qed.

(** *** The last method *)

Lemma last_cons_default {A : Type} (l : list A) (a d : A) :
  last (a :: l) d = last l a.
Proof.
  revert a d. induction l as [|b l IH]; intros a d; [reflexivity|].
  change (last (a :: b :: l) d) with (last (b :: l) d).
  rewrite IH. symmetry. apply IH.
Qed.

Lemma fold_left_overwrite {A B : Type} (f : B -> A) (l : list B) :
  forall d, fold_left (fun _ b => f b) l d = last (map f l) d.
Proof.
  induction l as [|b l IH]; intros d; [reflexivity|].
  simpl fold_left. rewrite IH. simpl map.
  symmetry. apply last_cons_default.
Qed.

(** *** Complexity counters *)

Lemma maxChildren_nonneg (ch : list Node) :
  (0 <= fold_right (fun child m => Z.max (nestingDepth child) m) 0 ch)%Z.
Proof.
  induction ch as [|c ch IH]; simpl; lia.
Qed.

Lemma nestingDepth_nonneg (node : Node) : (0 <= nestingDepth node)%Z.
Proof.
  destruct node as [p k t ch]. simpl.
  pose proof (maxChildren_nonneg ch). destruct (nests _); lia.
Qed.

Lemma countNodes_node (f : Node -> bool) (p : Property) (k : SyntaxKind)
    (t : string) (ch : list Node) :
  countNodes f (mkNode p k t ch)
  = ((if f (mkNode p k t ch) then 1 else 0)
     + Z.of_nat (length (filter f (flat_map preorder ch))))%Z.
Proof.
  unfold countNodes.
  change (preorder (mkNode p k t ch))
    with (mkNode p k t ch :: flat_map preorder ch).
  cbn [filter]. destruct (f (mkNode p k t ch)); [|reflexivity].
  cbn [length]. lia.
Qed.

Lemma visitComplexity_children (ch : list Node) :
  Forall (fun node => forall c,
            (currentDepth c <= maxDepth c)%Z ->
            visitComplexity node c
            = {| complexity := complexity c + countNodes isBranch node;
                 statements := statements c
                               + countNodes isCountedStatement node;
                 maxDepth := Z.max (maxDepth c)
                                   (currentDepth c + nestingDepth node);
                 currentDepth := currentDepth c |}%Z) ch ->
  forall c,
    (currentDepth c <= maxDepth c)%Z ->
    fold_left (fun st child => visitComplexity child st) ch c
    = {| complexity :=
           complexity c
           + Z.of_nat (length (filter isBranch (flat_map preorder ch)));
         statements :=
           statements c
           + Z.of_nat (length (filter isCountedStatement
                                      (flat_map preorder ch)));
         maxDepth :=
           Z.max (maxDepth c)
                 (currentDepth c
                  + fold_right (fun child m => Z.max (nestingDepth child) m)
                               0 ch);
         currentDepth := currentDepth c |}%Z.
Proof.
  induction 1 as [|n rest Hn _ IH]; intros c Hc.
  - destruct c as [a b m d]. cbn in *. f_equal; lia.
  - cbn [fold_left flat_map fold_right].
    pose proof (nestingDepth_nonneg n) as H0.
    pose proof (maxChildren_nonneg rest) as H1.
    rewrite (Hn c Hc), IH by (cbn; lia).
    cbn [complexity statements maxDepth currentDepth].
    rewrite !filter_app, !length_app, !Nat2Z.inj_add.
    unfold countNodes. f_equal; lia.
Qed.

Lemma visitComplexity_spec (node : Node) :
  forall c,
    (currentDepth c <= maxDepth c)%Z ->
    visitComplexity node c
    = {| complexity := complexity c + countNodes isBranch node;
         statements := statements c + countNodes isCountedStatement node;
         maxDepth := Z.max (maxDepth c) (currentDepth c + nestingDepth node);
         currentDepth := currentDepth c |}%Z.
Proof.
  induction node as [p k t ch IH] using Node_rect_children.
  intros c Hc. rewrite !countNodes_node.
  pose proof (visitComplexity_children ch IH) as Hfold.
  pose proof (maxChildren_nonneg ch) as Hmax.
  unfold isBranch, isCountedStatement in Hfold |- *.
  destruct k;
    cbn -[Z.add Z.sub Z.max Z.of_nat];
    rewrite Hfold by (cbn -[Z.add Z.sub Z.max Z.of_nat]; lia);
    cbn -[Z.add Z.sub Z.max Z.of_nat];
    f_equal; lia.
Qed.

(** *** Method names and modifiers *)

Lemma startsWith_first (s p : string) (a b : ascii) :
  Js.startsWith (String a s) (String b p) = true -> a = b.
Proof.
  simpl. intros H. apply andb_true_iff in H as [H _].
  apply Ascii.eqb_eq, H.
Qed.

Lemma getAccessModifier_skips (pre : list ModifierKind)
    (rest : list ModifierKind) :
  forallb (fun m => negb (isAccessKeyword m)) pre = true ->
  getAccessModifier (Some (pre ++ rest)%list) = getAccessModifier (Some rest).
Proof.
  induction pre as [|m pre IH]; intros H; [reflexivity|].
  simpl in H. apply andb_true_iff in H as [Hm Hpre].
  destruct m; try discriminate. simpl. apply (IH Hpre).
Qed.

Lemma startsWith_exclusive (n p q : string) (a b : ascii) :
  a <> b ->
  Js.startsWith n (String a p) = true ->
  Js.startsWith n (String b q) = false.
Proof.
  intros Hab H. destruct n as [|c n]; [reflexivity|].
  apply startsWith_first in H. subst c. simpl.
  destruct (Ascii.eqb_spec a b); [contradiction | reflexivity].
Qed.

Lemma filter_none {A : Type} (f : A -> bool) (l : list A) :
  forallb (fun a => negb (f a)) l = true -> filter f l = [].
Proof.
  induction l as [|a l IH]; intros H; [reflexivity|].
  simpl in H. apply andb_true_iff in H as [Ha Hl].
  apply negb_true_iff in Ha. simpl. rewrite Ha. apply IH, Hl.
Qed.

Lemma filter_split_length {A : Type} (f g : A -> bool) (l : list A) :
  length (filter (fun a => f a && negb (g a)) l)
  + length (filter (fun a => f a && g a) l)
  = length (filter f l).
Proof.
  induction l as [|a l IH]; [reflexivity|].
  simpl. destruct (f a), (g a); simpl; lia.
Qed.

(** ** Classes and interfaces: members and bases *)

Lemma visitDeclaration_class (node : Node) (s : TypeScriptAnalyzer) :
  isClassDeclaration node = true ->
  visitDeclaration node s
  = (let '(nodeId, s1) := addNode ty_class (className node) None s in
     fold_left (memberStep nodeId) (array p_members node)
       (fold_left (heritageStep nodeId ty_class classEdgeType)
                  (array p_heritageClauses node) s1)).
Proof.
  intros Hk. unfold visitDeclaration.
  replace (isFunctionDeclaration node) with false
    by (unfold isClassDeclaration, isFunctionDeclaration in *;
        destruct (kind node); try discriminate; reflexivity).
  rewrite Hk. reflexivity.
Qed.

Lemma visitDeclaration_interface (node : Node) (s : TypeScriptAnalyzer) :
  isInterfaceDeclaration node = true ->
  visitDeclaration node s
  = (let '(nodeId, s1) :=
       addNode ty_interface (getText (mandatory p_name node)) None s in
     fold_left (heritageStep nodeId ty_interface (fun _ => e_extends))
               (array p_heritageClauses node) s1).
Proof.
  intros Hk. unfold visitDeclaration.
  replace (isFunctionDeclaration node) with false
    by (unfold isInterfaceDeclaration, isFunctionDeclaration in *;
        destruct (kind node); try discriminate; reflexivity).
  replace (isClassDeclaration node) with false
    by (unfold isInterfaceDeclaration, isClassDeclaration in *;
        destruct (kind node); try discriminate; reflexivity).
  rewrite Hk. reflexivity.
Qed.

Lemma grows_trans (a b c : TypeScriptAnalyzer) :
  grows a b -> grows b c -> grows a c.
Proof.
  intros ([n1 Hn1] & [e1 He1] & [v1 Hv1]) ([n2 Hn2] & [e2 He2] & [v2 Hv2]).
  unfold grows. rewrite Hn2, He2, Hv2, Hn1, He1, Hv1, <- !app_assoc.
  repeat split; eexists; reflexivity.
Qed.

Lemma grows_visited (s s' : TypeScriptAnalyzer) (v : VisitedNode.t) :
  grows s s' -> In v (visitedNodes s) -> In v (visitedNodes s').
Proof.
  intros (_ & _ & [more H]) Hin. rewrite H. apply in_or_app. left. exact Hin.
Qed.

Lemma grows_edges (s s' : TypeScriptAnalyzer) (e : CodeEdge.t) :
  grows s s' -> In e (edges s) -> In e (edges s').
Proof.
  intros (_ & [more H] & _) Hin. rewrite H. apply in_or_app. left. exact Hin.
Qed.

Lemma visitNode_grows (node : Node) (s : TypeScriptAnalyzer) :
  grows s (visitNode node s).
Proof.
  apply (visitNode_preserves (grows s));
    [apply grows_addNode | apply grows_addEdge | apply grows_refl].
Qed.

Lemma visitNode_after_declaration (node : Node) (s : TypeScriptAnalyzer) :
  grows (visitDeclaration node s) (visitNode node s).
Proof.
  destruct node as [p k t ch]. simpl.
  apply (fold_left_invariant_all (grows (visitDeclaration (mkNode p k t ch) s)));
    [|apply grows_refl].
  intros st child H.
  apply (visitNode_preserves (grows (visitDeclaration (mkNode p k t ch) s)));
    [apply grows_addNode | apply grows_addEdge | exact H].
Qed.

(** The index entry [addNode] makes or finds. *)
Lemma addNode_entry (type : NodeType) (name : string)
    (details : option string) (s : TypeScriptAnalyzer) :
  exists v,
    In v (visitedNodes (snd (addNode type name details s)))
    /\ visitedKey v = (name, type)
    /\ VisitedNode.id v = fst (addNode type name details s).
Proof.
  destruct (findVisitedNode name type s) as [v|] eqn:Hf.
  - rewrite (addNode_existing _ _ _ _ _ Hf). simpl.
    destruct (findVisitedNode_some _ _ _ _ Hf) as (Hin & Hn & Ht).
    exists v. unfold visitedKey. rewrite Hn, Ht. auto.
  - destruct (addNode_fresh type name details s Hf) as (Hid & _ & Hv & _).
    eexists. split; [rewrite Hv; apply in_or_app; right; left; reflexivity|].
    split; [reflexivity|]. simpl. symmetry. exact Hid.
Qed.

Lemma memberStep_grows (nodeId : string) (st : TypeScriptAnalyzer)
    (member : Node) :
  grows st (memberStep nodeId st member).
Proof.
  unfold memberStep. destruct (isMethodDeclaration member); [|apply grows_refl].
  pose proof (addNode_grows ty_function (getText (mandatory p_name member))
                None st) as Hg.
  destruct (addNode ty_function _ None st) as [mid st1]. simpl in Hg.
  assert (H2 : grows st (addEdge nodeId mid None st1))
    by (apply grows_addEdge, Hg).
  destruct (optional p_body member); [|exact H2].
  apply (analyzeFunctionBody_preserves (grows st));
    [apply grows_addNode | apply grows_addEdge | exact H2].
Qed.

Lemma heritageStep_grows (nodeId : string) (type : NodeType)
    (edgeType : Node -> EdgeType) (st : TypeScriptAnalyzer) (clause : Node) :
  grows st (heritageStep nodeId type edgeType st clause).
Proof.
  unfold heritageStep.
  apply (fold_left_invariant_all (grows st)); [|apply grows_refl].
  intros a base Ha.
  pose proof (grows_addNode st type (getText (mandatory p_expression base))
                None a Ha) as Hg.
  destruct (addNode type _ None a) as [bid a1]. simpl in Hg.
  apply grows_addEdge, Hg.
Qed.

Lemma fold_left_grows {B : Type}
    (f : TypeScriptAnalyzer -> B -> TypeScriptAnalyzer) (l : list B) :
  (forall st b, grows st (f st b)) ->
  forall s, grows s (fold_left f l s).
Proof.
  intros Hf s. apply (fold_left_invariant_all (grows s)); [|apply grows_refl].
  intros st b H. apply (grows_trans _ _ _ H), Hf.
Qed.

(** What holds right after the step for one element of a list still
    holds at the end of the fold, when steps only ever add. *)
Lemma fold_left_grows_at {B : Type}
    (f : TypeScriptAnalyzer -> B -> TypeScriptAnalyzer) (l : list B) (b : B)
    (s : TypeScriptAnalyzer) :
  (forall st b', grows st (f st b')) ->
  In b l ->
  exists st, grows s st /\ grows (f st b) (fold_left f l s).
Proof.
  intros Hf Hin. apply in_split in Hin as (l1 & l2 & ->).
  rewrite fold_left_app. simpl.
  exists (fold_left f l1 s). split; apply fold_left_grows, Hf.
Qed.

Lemma memberStep_edge (nodeId : string) (st : TypeScriptAnalyzer)
    (member : Node) :
  isMethodDeclaration member = true ->
  exists m,
    In m (visitedNodes (memberStep nodeId st member))
    /\ visitedKey m = (getText (mandatory p_name member), ty_function)
    /\ In (edgeBetween nodeId (VisitedNode.id m) e_default)
          (edges (memberStep nodeId st member)).
Proof.
  intros Hk. unfold memberStep. rewrite Hk.
  destruct (addNode_entry ty_function (getText (mandatory p_name member))
              None st) as (m & Hin & Hkey & Hid).
  destruct (addNode ty_function _ None st) as [mid st1]. simpl in Hin, Hid.
  subst mid. exists m.
  set (st2 := addEdge nodeId (VisitedNode.id m) None st1).
  assert (H2 : In m (visitedNodes st2)
               /\ In (edgeBetween nodeId (VisitedNode.id m) e_default)
                     (edges st2)).
  { split; [exact Hin|]. simpl. apply in_or_app. right. left. reflexivity. }
  destruct (optional p_body member) as [body|]; [|tauto].
  assert (Hg : grows st2 (analyzeFunctionBody body (VisitedNode.id m) st2))
    by (apply (analyzeFunctionBody_preserves (grows st2));
        [apply grows_addNode | apply grows_addEdge | apply grows_refl]).
  split; [apply (grows_visited _ _ _ Hg), H2|].
  split; [exact Hkey | apply (grows_edges _ _ _ Hg), H2].
Qed.

Lemma heritageStep_edge (nodeId : string) (type : NodeType)
    (edgeType : Node -> EdgeType) (st : TypeScriptAnalyzer)
    (clause base : Node) :
  In base (array p_types clause) ->
  exists b,
    In b (visitedNodes (heritageStep nodeId type edgeType st clause))
    /\ visitedKey b = (getText (mandatory p_expression base), type)
    /\ In (edgeBetween nodeId (VisitedNode.id b) (edgeType clause))
          (edges (heritageStep nodeId type edgeType st clause)).
Proof.
  intros Hin. unfold heritageStep.
  set (step := fun (st : TypeScriptAnalyzer) (base : Node) =>
         let baseName := getText (mandatory p_expression base) in
         let '(baseId, st1) := addNode type baseName None st in
         addEdge nodeId baseId (Some (edgeType clause)) st1).
  assert (Hstep : forall a b', grows a (step a b')).
  { intros a b'. unfold step.
    pose proof (addNode_grows type (getText (mandatory p_expression b'))
                  None a) as Hg.
    destruct (addNode type _ None a) as [bid a1]. simpl in Hg.
    apply grows_addEdge, Hg. }
  destruct (fold_left_grows_at step _ base st Hstep Hin) as (a & _ & Hg).
  destruct (addNode_entry type (getText (mandatory p_expression base)) None a)
    as (b & Hb & Hkey & Hid).
  exists b.
  assert (Hhere : In b (visitedNodes (step a base))
                  /\ In (edgeBetween nodeId (VisitedNode.id b) (edgeType clause))
                        (edges (step a base))).
  { unfold step.
    destruct (addNode type _ None a) as [bid a1]. simpl in Hb, Hid. subst bid.
    split; [exact Hb|]. simpl. apply in_or_app. right. left. reflexivity. }
  split; [apply (grows_visited _ _ _ Hg), Hhere|].
  split; [exact Hkey | apply (grows_edges _ _ _ Hg), Hhere].
Qed.

(** *** The index mirrors the nodes *)

Lemma mirrored_addNode (type : NodeType) (name : string)
    (details : option string) (s : TypeScriptAnalyzer) :
  mirrored s -> mirrored (snd (addNode type name details s)).
Proof.
  intros H.
  destruct (findVisitedNode name type s) as [v|] eqn:Hf.
  - rewrite (addNode_existing _ _ _ _ _ Hf). exact H.
  - destruct (addNode_fresh type name details s Hf) as (_ & Hn & Hv & _).
    unfold mirrored in *. rewrite Hn, Hv, !map_app, H. reflexivity.
Qed.

Lemma mirrored_addEdge (source target : string) (type : option EdgeType)
    (s : TypeScriptAnalyzer) :
  mirrored s -> mirrored (addEdge source target type s).
Proof. intros H. exact H. Qed.

(** *** From index entries to graph nodes *)

Lemma mirrored_entry_node (s : TypeScriptAnalyzer) (v : VisitedNode.t) :
  mirrored s ->
  In v (visitedNodes s) ->
  exists n, In n (nodes s)
            /\ CodeNode.id n = VisitedNode.id v
            /\ CodeNode.label n = VisitedNode.name v
            /\ CodeNode.type n = VisitedNode.type v.
Proof.
  intros H Hv. unfold mirrored in H.
  apply (in_map (fun v => (VisitedNode.id v, VisitedNode.name v,
                           VisitedNode.type v))) in Hv.
  rewrite H in Hv. apply in_map_iff in Hv as (n & Hn & Hin).
  injection Hn as Hi Hl Ht. exists n. auto.
Qed.

Lemma visitNode_mirrored (node : Node) (s : TypeScriptAnalyzer) :
  mirrored s -> mirrored (visitNode node s).
Proof.
  apply (visitNode_preserves mirrored mirrored_addNode mirrored_addEdge).
Qed.

(** The index entries and the edge a class leaves for a method member. *)
Lemma class_method_entries (node member : Node) (s : TypeScriptAnalyzer) :
  isClassDeclaration node = true ->
  In member (array p_members node) ->
  isMethodDeclaration member = true ->
  let s' := visitNode node s in
  exists c m,
    In c (visitedNodes s')
    /\ visitedKey c = (className node, ty_class)
    /\ In m (visitedNodes s')
    /\ visitedKey m = (methodName member, ty_function)
    /\ In (edgeBetween (VisitedNode.id c) (VisitedNode.id m) e_default)
          (edges s').
Proof.
  intros Hk Hin Hm s'. subst s'.
  pose proof (visitNode_after_declaration node s) as Hend.
  rewrite (visitDeclaration_class node s Hk) in Hend.
  destruct (addNode_entry ty_class (className node) None s)
    as (c & Hc & Hckey & Hcid).
  destruct (addNode ty_class (className node) None s) as [nid s1].
  simpl in Hc, Hcid. subst nid.
  set (s2 := fold_left (heritageStep (VisitedNode.id c) ty_class classEdgeType)
                       (array p_heritageClauses node) s1) in *.
  assert (H12 : grows s1 s2)
    by (apply fold_left_grows; intros; apply heritageStep_grows).
  destruct (fold_left_grows_at (memberStep (VisitedNode.id c))
              (array p_members node) member s2
              (memberStep_grows (VisitedNode.id c)) Hin)
    as (st & H2st & Hrest).
  destruct (memberStep_edge (VisitedNode.id c) st member Hm)
    as (m & Hmin & Hmkey & Hedge).
  pose proof (grows_trans _ _ _ Hrest Hend) as Hafter.
  exists c, m. repeat split.
  - apply (grows_visited _ _ _ Hafter).
    apply (grows_visited _ _ _ (memberStep_grows _ st member)).
    apply (grows_visited _ _ _ H2st), (grows_visited _ _ _ H12), Hc.
  - exact Hckey.
  - apply (grows_visited _ _ _ Hafter), Hmin.
  - exact Hmkey.
  - apply (grows_edges _ _ _ Hafter), Hedge.
Qed.

(** The index entries and the edge a declaration leaves for a base. *)
Lemma heritage_entries :
  (forall node clause base s,
      isClassDeclaration node = true ->
      In clause (array p_heritageClauses node) ->
      In base (array p_types clause) ->
      let s' := visitNode node s in
      exists c b,
        In c (visitedNodes s')
        /\ visitedKey c = (className node, ty_class)
        /\ In b (visitedNodes s')
        /\ visitedKey b = (getText (mandatory p_expression base), ty_class)
        /\ In (edgeBetween (VisitedNode.id c) (VisitedNode.id b)
                 (match token clause with
                  | Some ExtendsKeyword => e_extends
                  | _ => e_implements
                  end))
              (edges s'))
  /\ (forall node clause base s,
        isInterfaceDeclaration node = true ->
        In clause (array p_heritageClauses node) ->
        In base (array p_types clause) ->
        let s' := visitNode node s in
        exists c b,
          In c (visitedNodes s')
          /\ visitedKey c = (getText (mandatory p_name node), ty_interface)
          /\ In b (visitedNodes s')
          /\ visitedKey b
             = (getText (mandatory p_expression base), ty_interface)
          /\ In (edgeBetween (VisitedNode.id c) (VisitedNode.id b) e_extends)
                (edges s')).
Proof.
  split.
  - intros node clause base s Hk Hclause Hbase s'. subst s'.
    pose proof (visitNode_after_declaration node s) as Hend.
    rewrite (visitDeclaration_class node s Hk) in Hend.
    destruct (addNode_entry ty_class (className node) None s)
      as (c & Hc & Hckey & Hcid).
    destruct (addNode ty_class (className node) None s) as [nid s1].
    simpl in Hc, Hcid. subst nid.
    destruct (fold_left_grows_at
                (heritageStep (VisitedNode.id c) ty_class classEdgeType)
                (array p_heritageClauses node) clause s1
                (heritageStep_grows (VisitedNode.id c) ty_class classEdgeType)
                Hclause) as (st & H1st & Hrest).
    destruct (heritageStep_edge (VisitedNode.id c) ty_class classEdgeType
                st clause base Hbase) as (b & Hb & Hbkey & Hedge).
    assert (Hmembers : forall a,
               grows a (fold_left (memberStep (VisitedNode.id c))
                                  (array p_members node) a))
      by (intros a; apply fold_left_grows; intros; apply memberStep_grows).
    pose proof (grows_trans _ _ _ (grows_trans _ _ _ Hrest (Hmembers _)) Hend)
      as Hafter.
    exists c, b. repeat split.
    + apply (grows_visited _ _ _ Hafter).
      apply (grows_visited _ _ _ (heritageStep_grows _ _ _ st clause)).
      apply (grows_visited _ _ _ H1st), Hc.
    + exact Hckey.
    + apply (grows_visited _ _ _ Hafter), Hb.
    + exact Hbkey.
    + apply (grows_edges _ _ _ Hafter), Hedge.
  - intros node clause base s Hk Hclause Hbase s'. subst s'.
    pose proof (visitNode_after_declaration node s) as Hend.
    rewrite (visitDeclaration_interface node s Hk) in Hend.
    destruct (addNode_entry ty_interface (getText (mandatory p_name node))
                None s) as (c & Hc & Hckey & Hcid).
    destruct (addNode ty_interface _ None s) as [nid s1].
    simpl in Hc, Hcid. subst nid.
    destruct (fold_left_grows_at
                (heritageStep (VisitedNode.id c) ty_interface
                              (fun _ => e_extends))
                (array p_heritageClauses node) clause s1
                (heritageStep_grows (VisitedNode.id c) ty_interface
                                    (fun _ => e_extends))
                Hclause) as (st & H1st & Hrest).
    destruct (heritageStep_edge (VisitedNode.id c) ty_interface
                (fun _ => e_extends) st clause base Hbase)
      as (b & Hb & Hbkey & Hedge).
    pose proof (grows_trans _ _ _ Hrest Hend) as Hafter.
    exists c, b. repeat split.
    + apply (grows_visited _ _ _ Hafter).
      apply (grows_visited _ _ _ (heritageStep_grows _ _ _ st clause)).
      apply (grows_visited _ _ _ H1st), Hc.
    + exact Hckey.
    + apply (grows_visited _ _ _ Hafter), Hb.
    + exact Hbkey.
    + apply (grows_edges _ _ _ Hafter), Hedge.
Qed.

(** ** The claims *)

(** C1 (the code departs from it).  A function declaration never gets its
    name as label: [split('.')[1]] is undefined for every name without a
    dot, so the label falls back to ['anonymous'].  Visiting such a
    declaration while the index holds no function ['anonymous'] creates a
    function node of that label, and [function foo() {}] yields a single
    node labelled ['anonymous']. *)
Theorem function_declaration_label_anonymous :
  (forall node,
      (forall nm, optional p_name node = Some nm ->
                  Js.includes (getText nm) "." = false) ->
      functionName node = "anonymous")
  /\ (forall node s,
        isFunctionDeclaration node = true ->
        (forall nm, optional p_name node = Some nm ->
                    Js.includes (getText nm) "." = false) ->
        findVisitedNode "anonymous" ty_function s = None ->
        exists n more,
          nodes (visitNode node s) = (nodes s ++ n :: more)%list
          /\ CodeNode.type n = ty_function
          /\ CodeNode.label n = "anonymous")
  /\ map (fun n => (CodeNode.type n, CodeNode.label n))
         (res_nodes (fst (analyze resetState Sample.fooProgram)))
     = [(ty_function, "anonymous")].
Proof.
  split; [exact functionName_without_dot|]. split; [|reflexivity].
  intros node s Hk Hdot Hfresh.
  destruct (visitNode_function_grows node s Hk) as ([more Hn] & _).
  rewrite (functionName_without_dot node Hdot) in Hn.
  destruct (addNode_fresh ty_function "anonymous"
              (Some (functionDetails node)) s Hfresh) as (_ & Hn' & _).
  rewrite Hn', <- app_assoc in Hn.
  eexists. exists more. split; [exact Hn|]. split; reflexivity.
Qed.

Lemma function_declaration_label_anonymous_witness :
  functionName (Build.functionDecl "foo" (Build.block p_body [])) = "anonymous"
  /\ exists n more,
       nodes (visitNode (Build.functionDecl "foo" (Build.block p_body []))
                Sample.afterClassA)
       = (nodes Sample.afterClassA ++ n :: more)%list
       /\ CodeNode.type n = ty_function
       /\ CodeNode.label n = "anonymous".
Proof.
  assert (Hdot : forall nm,
             optional p_name (Build.functionDecl "foo" (Build.block p_body []))
             = Some nm ->
             Js.includes (getText nm) "." = false).
  { intros nm H. injection H as <-. reflexivity. }
  split.
  - apply (proj1 function_declaration_label_anonymous). exact Hdot.
  - apply (proj1 (proj2 function_declaration_label_anonymous));
      [reflexivity | exact Hdot | reflexivity].
Defined.

(** C2, as stated, fails: ["dbQueueClient"] contains none of the database
    substrings of [determineCallType] and is classified ["queue"]. *)
Lemma dbQueueClient_not_database :
  determineCallType "dbQueueClient" = "queue"
  /\ determineCallType "dbQueueClient" <> "database".
Proof. split; [reflexivity | discriminate]. Qed.

(** C2 (amended).  [determineCallType] returns the category of the first
    rule, in the order database, api, queue, service, utility, that has a
    substring occurring in the target, and ["unknown"] when none has; so
    ["daoQueueClient"], which matches a database and a queue substring, is
    ["database"], while ["dbQueueClient"] matches no database substring
    and is ["queue"]. *)
Theorem determineCallType_priority :
  (forall target, determineCallType target = firstMatchingCategory target)
  /\ determineCallType "daoQueueClient" = "database"
  /\ matchesRule "daoQueueClient"
       (["Queue"; "queue"; "EventHandler"], "queue") = true
  /\ determineCallType "dbQueueClient" = "queue".
Proof.
  split; [|repeat split; reflexivity].
  intros target.
  unfold determineCallType, firstMatchingCategory, callTypeRules, matchesRule.
  cbn [find existsb fst snd].
  rewrite !orb_false_r, !orb_assoc.
  repeat match goal with
         | |- context [if ?b then _ else _] => destruct b
         end; reflexivity.
Qed.

(** C3, as stated, fails: ["myService.process"] starts with a lowercase
    letter and contains a dot, so the call is dropped like
    ["console.log"]: no node, no edge. *)
Lemma myService_process_dropped :
  getText (mandatory p_expression Sample.myServiceCall) = "myService.process"
  /\ analyzeFunctionBody Sample.myServiceCall "node-1" resetState = resetState
  /\ ~ (exists n e,
         In n (nodes (analyzeFunctionBody Sample.myServiceCall "node-1"
                        resetState))
         /\ In e (edges (analyzeFunctionBody Sample.myServiceCall "node-1"
                           resetState))
         /\ CodeEdge.type e = e_calls).
Proof.
  split; [reflexivity|]. split; [reflexivity|].
  intros (n & e & Hn & _). exact Hn.
Qed.

(** C3 (amended).  A call whose callee text the external-package heuristic
    matches produces no node and no edge, and nothing below it is looked
    at; this holds of ["console.log"] and of ["myService.process"] alike.
    A call whose callee text the heuristic does not match, such as
    ["MyService.process"], produces a ['calls'] edge from the enclosing
    function to the node of that name, which is a new call node when the
    index holds neither a function nor a call of that name. *)
Theorem external_package_filtering :
  isExternalPackageCall "console.log" = true
  /\ isExternalPackageCall "myService.process" = true
  /\ isExternalPackageCall "MyService.process" = false
  /\ (forall node functionNodeId s,
        isCallExpression node = true ->
        isExternalPackageCall (getText (mandatory p_expression node)) = true ->
        analyzeFunctionBody node functionNodeId s = s)
  /\ (forall node functionNodeId s,
        isCallExpression node = true ->
        isExternalPackageCall (getText (mandatory p_expression node)) = false ->
        let calledFunction := getText (mandatory p_expression node) in
        let s' := analyzeFunctionBody node functionNodeId s in
        exists v later,
          In v (visitedNodes s')
          /\ VisitedNode.name v = calledFunction
          /\ (VisitedNode.type v = ty_function \/ VisitedNode.type v = ty_call)
          /\ edges s' = (edges s ++
               edgeBetween functionNodeId (VisitedNode.id v) e_calls
               :: later)%list
          /\ (findVisitedNode calledFunction ty_function s = None ->
              findVisitedNode calledFunction ty_call s = None ->
              exists n more, nodes s' = (nodes s ++ n :: more)%list
                             /\ CodeNode.label n = calledFunction
                             /\ CodeNode.type n = ty_call
                             /\ CodeNode.id n = VisitedNode.id v)).
Proof.
  repeat split; try reflexivity.
  - intros node fid s Hk He. apply visitCallExpression_external; assumption.
  - intros node fid s Hk He calledFunction s'. subst s'.
    unfold analyzeFunctionBody.
    destruct (visitCallExpression_kept_grows fid node s Hk He)
      as ([ln Hn] & [le Hedg] & [lv Hv]).
    fold calledFunction in Hn, Hedg, Hv.
    destruct (recordCall_spec fid calledFunction s)
      as (v & Hin & Hname & Hty & Hedges & Hnew & _).
    exists v, le. repeat split; auto.
    + rewrite Hv. apply in_or_app. left. exact Hin.
    + rewrite Hedg, Hedges, <- app_assoc. reflexivity.
    + intros H1 H2. destruct (Hnew H1 H2) as (n & Hn1 & Hrest).
      exists n, ln. split; [|exact Hrest].
      rewrite Hn, Hn1, <- app_assoc. reflexivity.
Qed.

Lemma external_package_filtering_witness :
  analyzeFunctionBody Sample.consoleLogCall "node-1" resetState = resetState
  /\ analyzeFunctionBody Sample.myServiceCall "node-1" resetState = resetState
  /\ exists v later,
       In v (visitedNodes
               (analyzeFunctionBody Sample.upperServiceCall "node-1" resetState))
       /\ VisitedNode.name v = "MyService.process"
       /\ edges (analyzeFunctionBody Sample.upperServiceCall "node-1" resetState)
          = edgeBetween "node-1" (VisitedNode.id v) e_calls :: later.
Proof.
  destruct external_package_filtering as (_ & _ & _ & Hdrop & Hkeep).
  split; [apply Hdrop; reflexivity|].
  split; [apply Hdrop; reflexivity|].
  destruct (Hkeep Sample.upperServiceCall "node-1" resetState
              eq_refl eq_refl) as (v & later & Hin & Hname & _ & Hedges & _).
  exists v, later. auto.
Defined.

(** C4.  [addNode] on a key the index already holds returns the
    identifier recorded there and leaves the instance as it is; and the
    node list a run returns never holds two nodes of equal label and
    kind. *)
Theorem identity_index_dedup :
  (forall type name details s v,
      findVisitedNode name type s = Some v ->
      addNode type name details s = (VisitedNode.id v, s))
  /\ (forall this sourceFile,
        NoDup (map nodeKey (res_nodes (fst (analyze this sourceFile))))).
Proof.
  split; [exact addNode_existing|].
  intros this sourceFile.
  apply (analyze_establishes identityIndexed identityIndexed_addNode
           identityIndexed_addEdge this sourceFile identityIndexed_reset).
Qed.

Lemma identity_index_dedup_witness :
  addNode ty_class "A" (Some "again") Sample.afterClassA
  = ("node-1", Sample.afterClassA).
Proof.
  apply (proj1 identity_index_dedup ty_class "A" (Some "again")
           Sample.afterClassA (VisitedNode.mk "node-1" "A" ty_class)).
  reflexivity.
Defined.




(** C6.  The cursor starts at (0,0); a new node takes the cursor
    position, after which y grows by 100 and, once above 500, falls back
    to 0 while x grows by 250; so a run that creates seven nodes places
    them at y = 0, 100, 200, 300, 400, 500, 0, the first six at x = 0 and
    the seventh at x = 250. *)
Theorem layout_cursor_wraparound :
  (currentX resetState, currentY resetState) = (0, 0)%Z
  /\ (forall type name details s,
        findVisitedNode name type s = None ->
        let s' := snd (addNode type name details s) in
        exists n,
          nodes s' = (nodes s ++ [n])%list
          /\ (CodeNode.x n, CodeNode.y n) = (currentX s, currentY s)
          /\ (currentX s', currentY s') =
               (if (500 <? currentY s + 100)%Z
                then ((currentX s + 250)%Z, 0%Z)
                else (currentX s, (currentY s + 100)%Z)))
  /\ (forall this sourceFile,
        length (res_nodes (fst (analyze this sourceFile))) = 7 ->
        map CodeNode.y (res_nodes (fst (analyze this sourceFile)))
        = [0; 100; 200; 300; 400; 500; 0]%Z
        /\ map CodeNode.x (res_nodes (fst (analyze this sourceFile)))
           = [0; 0; 0; 0; 0; 0; 250]%Z).
Proof.
  split; [reflexivity|]. split.
  - intros type name details s Hf s'.
    destruct (addNode_fresh type name details s Hf) as (_ & Hn & _ & _ & Hc).
    eexists. split; [exact Hn|]. split; [reflexivity | exact Hc].
  - intros this sourceFile Hlen.
    pose proof (analyze_positions this sourceFile) as Hpos.
    destruct (res_nodes (fst (analyze this sourceFile)))
      as [|n0 [|n1 [|n2 [|n3 [|n4 [|n5 [|n6 [|n7 l]]]]]]]]; try discriminate.
    pose proof (Hpos 0 n0 eq_refl) as H0.
    pose proof (Hpos 1 n1 eq_refl) as H1.
    pose proof (Hpos 2 n2 eq_refl) as H2.
    pose proof (Hpos 3 n3 eq_refl) as H3.
    pose proof (Hpos 4 n4 eq_refl) as H4.
    pose proof (Hpos 5 n5 eq_refl) as H5.
    pose proof (Hpos 6 n6 eq_refl) as H6.
    change (cursorAt 0) with (0, 0)%Z in H0.
    change (cursorAt 1) with (0, 100)%Z in H1.
    change (cursorAt 2) with (0, 200)%Z in H2.
    change (cursorAt 3) with (0, 300)%Z in H3.
    change (cursorAt 4) with (0, 400)%Z in H4.
    change (cursorAt 5) with (0, 500)%Z in H5.
    change (cursorAt 6) with (250, 0)%Z in H6.
    simpl. split; congruence.
Qed.

Lemma layout_cursor_wraparound_witness :
  map CodeNode.y (res_nodes (fst (analyze resetState Sample.sevenInterfaces)))
  = [0; 100; 200; 300; 400; 500; 0]%Z
  /\ map CodeNode.x (res_nodes (fst (analyze resetState Sample.sevenInterfaces)))
     = [0; 0; 0; 0; 0; 0; 250]%Z.
Proof.
  apply (proj2 (proj2 layout_cursor_wraparound) resetState
           Sample.sevenInterfaces).
  reflexivity.
Defined.

(** C7.  [analyzeHandler] answers [null] exactly when the tree holds no
    class declaration; otherwise it answers the one-element array holding
    the descriptor of the first class declaration in top-down,
    depth-first order: the identifier drawn for the call, position (0,0),
    the decoded name of that class (empty when it has none), the name of
    its last method (empty when it has none) and the dependencies read
    off the parameters of its first constructor (none without a
    constructor).  Nothing else of the tree enters the result: two trees
    with the same first class give the same answer. *)
Theorem analyzeHandler_first_class (uuid : string) (sourceFile : Node) :
  (analyzeHandler uuid sourceFile = None <->
     forall n, In n (preorder sourceFile) -> isClassDeclaration n = false)
  /\ (forall c, firstClassDeclaration sourceFile = Some c ->
        analyzeHandler uuid sourceFile
        = Some
            [Handler.mk uuid 0 0
               (match classNameText c with
                | Some (String a r) => String a r
                | _ => EmptyString
                end)
               (last (map methodName (methodsOf c)) EmptyString)
               (match find isConstructorDeclaration (array p_members c) with
                | Some constructor =>
                    Handler.mkDependencies
                      (map parameterType
                           (filter isServiceParameter
                                   (array p_parameters constructor)))
                      (map (fun param =>
                              Handler.mkDatabase (parameterName param)
                                [SELECT; INSERT; UPDATE; DELETE])
                           (filter isDatabaseParameter
                                   (array p_parameters constructor)))
                      []
                | None => Handler.mkDependencies [] [] []
                end)])
  /\ (forall other,
        firstClassDeclaration other = firstClassDeclaration sourceFile ->
        analyzeHandler uuid other = analyzeHandler uuid sourceFile).
Proof.
  unfold analyzeHandler. repeat split.
  - rewrite visitHandler_firstClass. unfold firstClassDeclaration.
    destruct (find isClassDeclaration (preorder sourceFile)) eqn:E;
      [discriminate|].
    intros _. apply find_none_iff, E.
  - intros H. apply find_none_iff in H.
    rewrite visitHandler_firstClass. unfold firstClassDeclaration.
    rewrite H. reflexivity.
  - intros c H. rewrite visitHandler_firstClass, H.
    cbn [option_map]. f_equal. f_equal.
    unfold visitClass, newHandlerNode.
    cbn [Handler.id Handler.x Handler.y Handler.method Handler.dependencies].
    f_equal.
    + unfold classNameText, Js.orElse.
      destruct (optional p_name c) as [name|]; [|reflexivity].
      destruct (identifierText name) as [[|a r]|]; reflexivity.
    + apply (fold_left_overwrite methodName).
    + destruct (find isConstructorDeclaration (array p_members c)) as [k|];
        [|reflexivity].
      rewrite analyzeConstructor_spec.
      cbn [dep_services dep_databases dep_external].
      rewrite map_map. reflexivity.
  - intros other H. rewrite !visitHandler_firstClass, H. reflexivity.
Qed.

Lemma analyzeHandler_first_class_witness :
  firstClassDeclaration Sample2.handlerProgram = Some Sample2.handlerClass
  /\ analyzeHandler "u" Sample2.handlerProgram
     = Some
         [Handler.mk "u" 0 0 "H" "last"
            (Handler.mkDependencies
               ["UserService"; "DatabaseService"]
               [Handler.mkDatabase "c" [SELECT; INSERT; UPDATE; DELETE]]
               [])].
Proof.
  split; [reflexivity|].
  exact (proj1 (proj2 (analyzeHandler_first_class "u" Sample2.handlerProgram))
           Sample2.handlerClass eq_refl).
Defined.

(** C8 (the code departs from it).  [analyzeMethodComplexity] throws a
    [TypeError] on every method declaration without a body, such as an
    abstract method or an overload signature. *)
Theorem analyzeMethodComplexity_throws_without_body (method : Node) :
  optional p_body method = None ->
  analyzeMethodComplexity method = Throw TypeError.
Proof.
  intros H. unfold analyzeMethodComplexity. rewrite H. reflexivity.
Qed.

Lemma analyzeMethodComplexity_throws_without_body_witness :
  isMethodDeclaration Sample.abstractMethod = true
  /\ analyzeMethodComplexity Sample.abstractMethod = Throw TypeError.
Proof.
  split; [reflexivity|].
  apply analyzeMethodComplexity_throws_without_body. reflexivity.
Defined.

(** C9, as stated, fails for [analyzeHandler]: the node it returns carries
    a fresh [crypto.randomUUID()], so two calls on one tree differ. *)
Lemma analyzeHandler_differs_by_uuid :
  analyzeHandler "1b4e28ba" Sample.twoClassesProgram
  <> analyzeHandler "6fa459ea" Sample.twoClassesProgram.
Proof. discriminate. Qed.

(** C9 (amended).  [analyze] is a function of the tree alone, whatever
    state the instance was left in; [analyzeHandler] is a function of the
    tree up to the [id] field of the returned node, which is the random
    identifier drawn for the call. *)
Theorem analysis_determinism :
  (forall this1 this2 sourceFile,
      analyze this1 sourceFile = analyze this2 sourceFile)
  /\ (forall uuid1 uuid2 sourceFile,
        analyzeHandler uuid2 sourceFile
        = option_map (map (withId uuid2)) (analyzeHandler uuid1 sourceFile)).
Proof.
  split.
  { intros this1 this2 sourceFile. unfold analyze.
    rewrite (reset_fresh this1), (reset_fresh this2). reflexivity. }
  intros uuid1 uuid2 sourceFile. unfold analyzeHandler.
  rewrite <- visitHandler_withId. reflexivity.
Qed.

(** C10.  When the first class declaration found is unnamed, the handler
    name of the returned descriptor is the empty string. *)
Theorem unnamed_class_handler_empty (uuid : string) (sourceFile c : Node) :
  firstClassDeclaration sourceFile = Some c ->
  optional p_name c = None ->
  exists h, analyzeHandler uuid sourceFile = Some [h]
            /\ Handler.handler h = EmptyString
            /\ Handler.handler h <> "anonymous".
Proof.
  intros Hc Hname. unfold analyzeHandler.
  rewrite visitHandler_firstClass, Hc. simpl.
  eexists. split; [reflexivity|].
  unfold visitClass. simpl. rewrite Hname. simpl.
  split; [reflexivity | discriminate].
Qed.

Lemma unnamed_class_handler_empty_witness :
  exists h, analyzeHandler "u" Sample.unnamedClassProgram = Some [h]
            /\ Handler.handler h = EmptyString
            /\ Handler.handler h <> "anonymous".
Proof.
  apply (unnamed_class_handler_empty "u" Sample.unnamedClassProgram
           (Build.classDecl None [] [])); reflexivity.
Defined.

(** ** Further properties *)

(** X1.  Both ends of every edge a run returns are identifiers of nodes
    the run returns: no edge dangles. *)
Theorem analyze_edges_join_nodes (this : TypeScriptAnalyzer)
    (sourceFile : Node) (e : CodeEdge.t) :
  In e (res_edges (fst (analyze this sourceFile))) ->
  In (CodeEdge.source e)
     (map CodeNode.id (res_nodes (fst (analyze this sourceFile))))
  /\ In (CodeEdge.target e)
        (map CodeNode.id (res_nodes (fst (analyze this sourceFile)))).
Proof.
  unfold analyze. simpl. rewrite reset_fresh.
  destruct (visitNode_linked sourceFile resetState linked_reset) as [_ H].
  apply H.
Qed.

Lemma analyze_edges_join_nodes_witness :
  In "node-3"
     (map CodeNode.id (res_nodes (fst (analyze resetState Sample2.linkedProgram))))
  /\ In "node-4"
        (map CodeNode.id
             (res_nodes (fst (analyze resetState Sample2.linkedProgram)))).
Proof.
  apply (analyze_edges_join_nodes resetState Sample2.linkedProgram
           (edgeBetween "node-3" "node-4" e_calls)).
  simpl. right. right. left. reflexivity.
Defined.

(** X2.  The nodes a run returns carry the identifiers node-1, node-2,
    ... in creation order; no two nodes share an identifier, and the
    counter ends at the number of nodes. *)
Theorem analyze_node_ids (this : TypeScriptAnalyzer) (sourceFile : Node) :
  let result := fst (analyze this sourceFile) in
  map CodeNode.id (res_nodes result)
  = map nthNodeId (seq 1 (length (res_nodes result)))
  /\ NoDup (map CodeNode.id (res_nodes result))
  /\ nodeCounter (snd (analyze this sourceFile))
     = N.of_nat (length (res_nodes result)).
Proof.
  destruct (analyze_establishes numbered numbered_addNode numbered_addEdge
              this sourceFile numbered_reset) as [Hc Hids].
  simpl. unfold nodeIds in Hids. simpl in Hids, Hc.
  split; [exact Hids|]. split; [|exact Hc].
  rewrite Hids. apply NoDup_map_injective; [exact nthNodeId_inj|].
  apply seq_NoDup.
Qed.

(** X3.  A file without any function, class or interface declaration
    yields the empty graph, whatever calls it holds: calls outside a
    declared function or method are never looked at. *)
Theorem analyze_without_declarations (this : TypeScriptAnalyzer)
    (sourceFile : Node) :
  forallb (fun n => negb (isDeclaration n)) (preorder sourceFile) = true ->
  fst (analyze this sourceFile) = {| res_nodes := []; res_edges := [] |}.
Proof.
  intros H. unfold analyze. simpl.
  rewrite reset_fresh, (visitNode_without_declarations sourceFile H).
  reflexivity.
Qed.

Lemma analyze_without_declarations_witness :
  existsb isCallExpression (preorder Sample2.callsOnlyProgram) = true
  /\ fst (analyze resetState Sample2.callsOnlyProgram)
     = {| res_nodes := []; res_edges := [] |}.
Proof.
  split; [reflexivity|].
  apply analyze_without_declarations. reflexivity.
Defined.

(** X4.  The ignore list is matched as a prefix: a callee that merely
    starts with one of its entries, such as [mapper] or [toString], is
    external; so is every callee that starts with [this.], and a call
    with such a callee adds nothing to the graph. *)
Theorem external_by_prefix :
  (forall packageName rest,
      In packageName packagesToIgnore ->
      isExternalPackageCall (packageName ++ rest) = true)
  /\ (forall rest, isExternalPackageCall ("this." ++ rest) = true)
  /\ (forall node rest functionNodeId s,
        isCallExpression node = true ->
        getText (mandatory p_expression node) = "this." ++ rest ->
        analyzeFunctionBody node functionNodeId s = s).
Proof.
  assert (Hthis : forall rest, isExternalPackageCall ("this." ++ rest) = true).
  { intros rest. unfold isExternalPackageCall.
    destruct (existsb _ packagesToIgnore); reflexivity. }
  split; [|split; [exact Hthis|]].
  - intros packageName rest Hin. unfold isExternalPackageCall.
    replace (existsb _ packagesToIgnore) with true; [reflexivity|].
    symmetry. apply existsb_exists. exists packageName.
    split; [exact Hin | apply startsWith_app].
  - intros node rest fid s Hk Ht.
    apply visitCallExpression_external; [exact Hk|].
    rewrite Ht. apply Hthis.
Qed.

Lemma external_by_prefix_witness :
  isExternalPackageCall "toString" = true
  /\ analyzeFunctionBody (Sample2.memberCall "this" "helper") "node-1"
       Sample.afterClassA = Sample.afterClassA.
Proof.
  destruct external_by_prefix as (Hp & _ & Hc). split.
  - apply (Hp "to" "String"). simpl. tauto.
  - apply (Hc _ "helper"); reflexivity.
Defined.

(** X5.  The nodes of a run lie on a grid, the [k]-th at column [k/6]
    and row [k mod 6]: no two nodes share a position, x is never
    negative and y stays between 0 and 500. *)
Theorem analyze_layout_grid (this : TypeScriptAnalyzer) (sourceFile : Node) :
  let position := fun n => (CodeNode.x n, CodeNode.y n) in
  let result := fst (analyze this sourceFile) in
  map position (res_nodes result)
  = map cursorAt (seq 0 (length (res_nodes result)))
  /\ NoDup (map position (res_nodes result))
  /\ Forall (fun n => (0 <= CodeNode.x n /\ 0 <= CodeNode.y n <= 500)%Z)
            (res_nodes result).
Proof.
  intros position result.
  assert (Hmap : map position (res_nodes result)
                 = map cursorAt (seq 0 (length (res_nodes result)))).
  { apply map_by_index. intros k n Hk.
    apply (analyze_positions this sourceFile k n Hk). }
  split; [exact Hmap|]. split.
  - rewrite Hmap. apply NoDup_map_injective; [exact cursorAt_inj|].
    apply seq_NoDup.
  - apply Forall_forall. intros n Hn.
    apply In_nth_error in Hn as [k Hk].
    pose proof (analyze_positions this sourceFile k n Hk) as Hp.
    pose proof (cursorAt_bounds k) as Hb. rewrite <- Hp in Hb. exact Hb.
Qed.

(** X6.  After [addNode] the index answers for the key with the
    identifier [addNode] returned, a second [addNode] on the key returns
    the same identifier and changes nothing, and the answers for every
    other key are as before. *)
Theorem addNode_then_find (type : NodeType) (name : string)
    (details : option string) (s : TypeScriptAnalyzer) :
  let id := fst (addNode type name details s) in
  let s' := snd (addNode type name details s) in
  (exists v, findVisitedNode name type s' = Some v /\ VisitedNode.id v = id)
  /\ (forall details', addNode type name details' s' = (id, s'))
  /\ (forall type' name',
        (name', type') <> (name, type) ->
        findVisitedNode name' type' s' = findVisitedNode name' type' s).
Proof.
  intros id s'. subst id s'.
  destruct (findVisitedNode name type s) as [v|] eqn:Hf.
  - rewrite (addNode_existing _ _ _ _ _ Hf). simpl.
    split; [exists v; auto|]. split; [|reflexivity].
    intros details'. apply addNode_existing, Hf.
  - destruct (addNode_fresh type name details s Hf) as (Hid & _ & Hv & _).
    set (id := "node-" ++ Js.ofNumber (N.succ (nodeCounter s))) in *.
    assert (Hnew : findVisitedNode name type (snd (addNode type name details s))
                   = Some (VisitedNode.mk id name type)).
    { unfold findVisitedNode in *. rewrite Hv, find_app_first, Hf. simpl.
      rewrite String.eqb_refl. destruct type; reflexivity. }
    split; [|split].
    + eexists. split; [exact Hnew|]. rewrite Hid. reflexivity.
    + intros details'. rewrite (addNode_existing _ _ _ _ _ Hnew), Hid.
      reflexivity.
    + intros type' name' Hneq. unfold findVisitedNode in *.
      rewrite Hv, find_app_first.
      match goal with
      | |- match ?x with _ => _ end = _ => destruct x
      end; [reflexivity|]. simpl.
      destruct (String.eqb name name') eqn:En; [|reflexivity].
      destruct (NodeType_eqb type type') eqn:Et; [|reflexivity].
      apply String.eqb_eq in En. apply NodeType_eqb_eq in Et.
      subst. contradiction Hneq. reflexivity.
Qed.

Lemma addNode_then_find_witness :
  findVisitedNode "A" ty_function
    (snd (addNode ty_call "A" None Sample.afterClassA))
  = findVisitedNode "A" ty_function Sample.afterClassA.
Proof.
  apply (proj2 (proj2 (addNode_then_find ty_call "A" None Sample.afterClassA))).
  discriminate.
Defined.

(** X7.  For a method with a body, the cyclomatic complexity is one more
    than the number of if, for, while, do, case and conditional nodes of
    the body, the statement count is the number of its statement nodes
    other than blocks, and the depth is the largest number of blocks,
    ifs, fors and whiles nested in one another. *)
Theorem analyzeMethodComplexity_counts (method body : Node) :
  optional p_body method = Some body ->
  analyzeMethodComplexity method
  = Normal {| cyclomaticComplexity := 1 + countNodes isBranch body;
              numberOfStatements := countNodes isCountedStatement body;
              depth := nestingDepth body |}%Z.
Proof.
  intros H. unfold analyzeMethodComplexity. rewrite H.
  rewrite visitComplexity_spec by (cbn; lia).
  cbn [complexity statements maxDepth currentDepth].
  pose proof (nestingDepth_nonneg body).
  f_equal. f_equal; lia.
Qed.

Lemma analyzeMethodComplexity_counts_witness :
  analyzeMethodComplexity (Build.methodDecl "m" (Some Sample2.nestedBody))
  = Normal {| cyclomaticComplexity := 3; numberOfStatements := 2;
              depth := 5 |}.
Proof.
  apply (analyzeMethodComplexity_counts
           (Build.methodDecl "m" (Some Sample2.nestedBody)) Sample2.nestedBody).
  reflexivity.
Defined.

(** X8.  For a method with a body the complexity is at least 1 and
    exactly 1 when the body holds no branching node; the depth is at
    least 1 as soon as the body is a block, so even an empty method body
    has depth 1. *)
Theorem analyzeMethodComplexity_bounds (method body : Node) :
  optional p_body method = Some body ->
  exists m,
    analyzeMethodComplexity method = Normal m
    /\ (1 <= cyclomaticComplexity m)%Z
    /\ (0 <= numberOfStatements m)%Z
    /\ (0 <= depth m)%Z
    /\ (isBlock body = true -> (1 <= depth m)%Z)
    /\ (forallb (fun n => negb (isBranch n)) (preorder body) = true ->
        cyclomaticComplexity m = 1%Z).
Proof.
  intros H. unfold analyzeMethodComplexity. rewrite H.
  eexists. split; [reflexivity|].
  rewrite visitComplexity_spec by (cbn; lia).
  cbn [cyclomaticComplexity numberOfStatements depth
       complexity statements maxDepth currentDepth].
  pose proof (nestingDepth_nonneg body) as Hd.
  unfold countNodes. repeat split; try lia.
  - intros Hb. destruct body as [p k t ch].
    change (nestingDepth (mkNode p k t ch))
      with ((if nests (mkNode p k t ch) then 1 else 0)
            + fold_right (fun child m => Z.max (nestingDepth child) m) 0 ch)%Z.
    unfold nests. rewrite Hb. cbn [orb].
    pose proof (maxChildren_nonneg ch). lia.
  - intros Hn. rewrite (filter_none _ _ Hn). reflexivity.
Qed.

Lemma analyzeMethodComplexity_bounds_witness :
  exists m,
    analyzeMethodComplexity
      (Build.methodDecl "m" (Some (Build.block p_body []))) = Normal m
    /\ cyclomaticComplexity m = 1%Z
    /\ (1 <= depth m)%Z.
Proof.
  destruct (analyzeMethodComplexity_bounds
              (Build.methodDecl "m" (Some (Build.block p_body [])))
              (Build.block p_body []) eq_refl)
    as (m & Hm & _ & _ & _ & Hdepth & Hone).
  exists m. split; [exact Hm|]. split.
  - apply Hone. reflexivity.
  - apply Hdepth. reflexivity.
Defined.

(** X9.  [analyzeMethodCalls] records the member calls of the tree in
    top-down, left-to-right order: the actions of those whose target is
    not external under [internal], and target, action and call type of
    the others under [external]; it goes on below every call, whatever
    its target. *)
Theorem analyzeMethodCalls_preorder (toLowerCase : string -> string)
    (node : Node) :
  analyzeMethodCalls toLowerCase node
  = MethodCalls.mk
      (map callAction (filter (recordedInternal toLowerCase) (preorder node)))
      (map externalEntry (filter (recordedExternal toLowerCase) (preorder node))).
Proof.
  unfold analyzeMethodCalls. apply visitMethodCalls_spec.
Qed.

(** X10.  Every member call of the tree is recorded exactly once, as
    internal or as external, and calls that are not member calls are not
    recorded; a member call whose target starts with [this.] is always
    recorded as external, with the call type [determineCallType] gives
    its target. *)
Theorem analyzeMethodCalls_member_calls (toLowerCase : string -> string)
    (body : Node) :
  let calls := analyzeMethodCalls toLowerCase body in
  length (MethodCalls.internal calls) + length (MethodCalls.external calls)
  = length (filter isMemberCall (preorder body))
  /\ (forall n,
        In n (preorder body) ->
        isMemberCall n = true ->
        Js.startsWith (callTarget n) "this." = true ->
        In (MethodCalls.mkExternal (determineCallType (callTarget n))
              (callTarget n) (callAction n))
           (MethodCalls.external calls)).
Proof.
  intros calls. subst calls.
  unfold analyzeMethodCalls. rewrite visitMethodCalls_spec.
  cbn [MethodCalls.internal MethodCalls.external app].
  split.
  - rewrite !length_map. unfold recordedInternal, recordedExternal.
    apply (filter_split_length isMemberCall
             (fun n => isExternalCall toLowerCase (callTarget n))).
  - intros n Hin Hm Hthis.
    apply (in_map externalEntry). apply filter_In. split; [exact Hin|].
    unfold recordedExternal, isExternalCall.
    rewrite Hm, Hthis, !orb_true_r. reflexivity.
Qed.

Lemma analyzeMethodCalls_member_calls_witness :
  In (MethodCalls.mkExternal "unknown" "this.repo" "save")
     (MethodCalls.external
        (analyzeMethodCalls Sample2.asciiLower Sample2.mixedBody)).
Proof.
  apply (proj2 (analyzeMethodCalls_member_calls Sample2.asciiLower
                  Sample2.mixedBody)
           (Sample2.memberCall "this.repo" "save"));
    [simpl; tauto | reflexivity | reflexivity].
Defined.

(** X11.  [analyzeConstructor] reports as services the declared types
    ending in [Service], in parameter order, and as databases the names
    of the parameters whose type contains [Database] without ending in
    [Service], each with all four actions; parameters without a type
    count for nothing, and no external dependency is ever reported. *)
Theorem analyzeConstructor_dependencies (node : Node) :
  let params := array p_parameters node in
  dep_services (analyzeConstructor node)
  = map parameterType (filter isServiceParameter params)
  /\ dep_databases (analyzeConstructor node)
     = map (fun param => (parameterName param, [SELECT; INSERT; UPDATE; DELETE]))
           (filter isDatabaseParameter params)
  /\ dep_external (analyzeConstructor node) = [].
Proof.
  rewrite analyzeConstructor_spec. repeat split.
Qed.

(** X12.  The method name of the descriptor is that of the last method
    declaration among the members of the first class, and the empty
    string when the class declares no method. *)
Theorem analyzeHandler_last_method (uuid : string) (sourceFile c : Node) :
  firstClassDeclaration sourceFile = Some c ->
  exists h,
    analyzeHandler uuid sourceFile = Some [h]
    /\ Handler.method h = last (map methodName (methodsOf c)) EmptyString.
Proof.
  intros Hc. unfold analyzeHandler.
  rewrite visitHandler_firstClass, Hc. simpl.
  eexists. split; [reflexivity|].
  unfold visitClass. cbn [Handler.method newHandlerNode].
  apply (fold_left_overwrite methodName).
Qed.

Lemma analyzeHandler_last_method_witness :
  exists h,
    analyzeHandler "u" (Build.sourceFile [Sample2.handlerClass]) = Some [h]
    /\ Handler.method h = "last".
Proof.
  apply (analyzeHandler_last_method "u"
           (Build.sourceFile [Sample2.handlerClass]) Sample2.handlerClass).
  reflexivity.
Defined.

(** X13.  Whatever [analyzeHandler] returns is a single node with the
    identifier drawn for the call, placed at (0,0) and carrying the
    decoded name of the first class ([node.name.text], not its source
    text), empty when the class is unnamed; its dependencies are those of
    the first constructor among the members of that class, and all empty
    when it has none; it
    never lists an external dependency, and every database it lists
    carries all four actions. *)
Theorem analyzeHandler_descriptor (uuid : string) (sourceFile c : Node) :
  firstClassDeclaration sourceFile = Some c ->
  exists h,
    analyzeHandler uuid sourceFile = Some [h]
    /\ Handler.id h = uuid
    /\ (Handler.x h, Handler.y h) = (0, 0)%Z
    /\ Handler.handler h
       = match classNameText c with
         | Some (String a r) => String a r
         | _ => EmptyString
         end
    /\ Handler.dependencies h
       = match find isConstructorDeclaration (array p_members c) with
         | Some constructor =>
             Handler.mkDependencies
               (map parameterType
                    (filter isServiceParameter
                            (array p_parameters constructor)))
               (map (fun param =>
                       Handler.mkDatabase (parameterName param)
                         [SELECT; INSERT; UPDATE; DELETE])
                    (filter isDatabaseParameter
                            (array p_parameters constructor)))
               []
         | None => Handler.mkDependencies [] [] []
         end
    /\ Handler.external (Handler.dependencies h) = []
    /\ Forall (fun db => Handler.actions db = [SELECT; INSERT; UPDATE; DELETE])
              (Handler.databases (Handler.dependencies h)).
Proof.
  intros Hc. unfold analyzeHandler.
  rewrite visitHandler_firstClass, Hc. simpl.
  eexists. split; [reflexivity|].
  unfold visitClass.
  cbn [Handler.id Handler.x Handler.y Handler.handler Handler.dependencies
       newHandlerNode].
  repeat split.
  - unfold classNameText, Js.orElse.
    destruct (optional p_name c) as [name|]; [|reflexivity].
    destruct (identifierText name) as [[|a r]|]; reflexivity.
  - destruct (find isConstructorDeclaration (array p_members c)) as [k|];
      [|reflexivity].
    rewrite analyzeConstructor_spec. simpl. rewrite map_map. reflexivity.
  - destruct (find isConstructorDeclaration (array p_members c)) as [k|];
      [|reflexivity].
    rewrite analyzeConstructor_spec. reflexivity.
  - destruct (find isConstructorDeclaration (array p_members c)) as [k|];
      [|constructor].
    rewrite analyzeConstructor_spec. simpl. rewrite map_map.
    apply Forall_forall. intros db Hdb.
    apply in_map_iff in Hdb as (x & <- & _). reflexivity.
Qed.

Lemma analyzeHandler_descriptor_witness :
  (exists h,
      analyzeHandler "u" (Build.sourceFile [Sample2.handlerClass]) = Some [h]
      /\ Handler.handler h = "H"
      /\ Handler.dependencies h
         = Handler.mkDependencies
             ["UserService"; "DatabaseService"]
             [Handler.mkDatabase "c" [SELECT; INSERT; UPDATE; DELETE]]
             [])
  /\ (exists h,
        analyzeHandler "u" (Build.sourceFile [Sample2.escapedClass]) = Some [h]
        /\ Handler.handler h = "Abc").
Proof.
  split.
  - destruct (analyzeHandler_descriptor "u"
                (Build.sourceFile [Sample2.handlerClass]) Sample2.handlerClass
                eq_refl) as (h & Hh & _ & _ & Hn & Hd & _).
    exists h. split; [exact Hh|]. split; [exact Hn | exact Hd].
  - destruct (analyzeHandler_descriptor "u"
                (Build.sourceFile [Sample2.escapedClass]) Sample2.escapedClass
                eq_refl) as (h & Hh & _ & _ & Hn & _).
    exists h. split; [exact Hh | exact Hn].
Defined.

(** X14.  [determineMethodType] depends on the prefix of the method name
    alone, and the prefixes exclude one another: the type is processor
    exactly for names starting with [process], action exactly for names
    starting with [handle] or [send], validator exactly for names
    starting with [validate], and helper for every other name, those
    starting with [get] or [check] included. *)
Theorem determineMethodType_cases (node : Node) :
  let name := methodName node in
  (determineMethodType node = "processor"
   <-> Js.startsWith name "process" = true)
  /\ (determineMethodType node = "action"
      <-> Js.startsWith name "handle" = true
          \/ Js.startsWith name "send" = true)
  /\ (determineMethodType node = "validator"
      <-> Js.startsWith name "validate" = true)
  /\ (determineMethodType node = "helper"
      <-> Js.startsWith name "process" = false
          /\ Js.startsWith name "handle" = false
          /\ Js.startsWith name "send" = false
          /\ Js.startsWith name "validate" = false).
Proof.
  intros name. unfold determineMethodType. fold (methodName node). fold name.
  assert (Hx : forall a p b q, a <> b ->
                 Js.startsWith name (String a p) = true ->
                 Js.startsWith name (String b q) = false)
    by (intros a p b q; apply startsWith_exclusive).
  destruct (Js.startsWith name "process") eqn:Ep.
  { rewrite (Hx "p"%char "rocess" "h"%char "andle" ltac:(discriminate) Ep),
            (Hx "p"%char "rocess" "s"%char "end" ltac:(discriminate) Ep),
            (Hx "p"%char "rocess" "v"%char "alidate" ltac:(discriminate) Ep).
    repeat split; intros; try discriminate; try reflexivity;
      intuition discriminate. }
  destruct (Js.startsWith name "handle") eqn:Eh.
  { rewrite (Hx "h"%char "andle" "v"%char "alidate" ltac:(discriminate) Eh). cbn [orb].
    repeat split; intros; try discriminate; try reflexivity;
      intuition discriminate. }
  destruct (Js.startsWith name "send") eqn:Es.
  { rewrite (Hx "s"%char "end" "v"%char "alidate" ltac:(discriminate) Es). cbn [orb].
    repeat split; intros; try discriminate; try reflexivity;
      intuition discriminate. }
  cbn [orb].
  destruct (Js.startsWith name "validate") eqn:Ev.
  { repeat split; intros; try discriminate; try reflexivity;
      intuition discriminate. }
  destruct (Js.startsWith name "get" || Js.startsWith name "check");
    repeat split; intros; try discriminate; try reflexivity;
    intuition discriminate.
Qed.

Lemma determineMethodType_cases_witness :
  determineMethodType (Build.methodDecl "processOrder" None) = "processor"
  /\ determineMethodType (Build.methodDecl "getUser" None) = "helper".
Proof.
  split.
  - apply (proj1 (determineMethodType_cases
                    (Build.methodDecl "processOrder" None))).
    reflexivity.
  - apply (proj2 (proj2 (proj2 (determineMethodType_cases
                                  (Build.methodDecl "getUser" None))))).
    repeat split.
Defined.

(** X15.  [getAccessModifier] answers with the first access keyword
    among the modifiers, whatever follows it, skipping every other
    modifier; without any access keyword, or without modifiers at all, it
    answers [public]. *)
Theorem getAccessModifier_first_keyword :
  (forall pre m rest,
      forallb (fun k => negb (isAccessKeyword k)) pre = true ->
      isAccessKeyword m = true ->
      getAccessModifier (Some (pre ++ m :: rest)%list) = accessOf m)
  /\ (forall ms,
        forallb (fun k => negb (isAccessKeyword k)) ms = true ->
        getAccessModifier (Some ms) = "public")
  /\ getAccessModifier None = "public".
Proof.
  split; [|split; [|reflexivity]].
  - intros pre m rest Hpre Hm.
    rewrite (getAccessModifier_skips pre (m :: rest) Hpre).
    destruct m; [reflexivity | reflexivity | reflexivity | discriminate].
  - intros ms Hms.
    rewrite <- (app_nil_r ms), (getAccessModifier_skips ms [] Hms).
    reflexivity.
Qed.

Lemma getAccessModifier_first_keyword_witness :
  getAccessModifier
    (Some [OtherModifier; ProtectedKeyword; PrivateKeyword; OtherModifier])
  = "protected".
Proof.
  apply (proj1 getAccessModifier_first_keyword [OtherModifier]
           ProtectedKeyword [PrivateKeyword; OtherModifier]); reflexivity.
Defined.

(** X16.  Visiting a class declaration, in a state whose index mirrors
    its nodes, leaves for each of its method members a graph node of
    kind function labelled with the method's name, a graph node of kind
    class labelled with the class's name, and a ['default'] edge from the
    latter to the former. *)
Theorem class_method_edges (node member : Node) (s : TypeScriptAnalyzer) :
  mirrored s ->
  isClassDeclaration node = true ->
  In member (array p_members node) ->
  isMethodDeclaration member = true ->
  let s' := visitNode node s in
  exists c m : CodeNode.t,
    In c (nodes s')
    /\ CodeNode.label c = className node
    /\ CodeNode.type c = ty_class
    /\ In m (nodes s')
    /\ CodeNode.label m = methodName member
    /\ CodeNode.type m = ty_function
    /\ In (edgeBetween (CodeNode.id c) (CodeNode.id m) e_default) (edges s').
Proof.
  intros Hs Hk Hin Hm s'.
  destruct (class_method_entries node member s Hk Hin Hm)
    as (vc & vm & Hvc & Hkc & Hvm & Hkm & Hedge).
  fold s' in Hvc, Hvm, Hedge.
  pose proof (visitNode_mirrored node s Hs) as Hs'. fold s' in Hs'.
  destruct (mirrored_entry_node s' vc Hs' Hvc) as (c & Hc & Hci & Hcl & Hct).
  destruct (mirrored_entry_node s' vm Hs' Hvm) as (m & Hmn & Hmi & Hml & Hmt).
  unfold visitedKey in Hkc, Hkm.
  injection Hkc as Hcn Hcty. injection Hkm as Hmname Hmty.
  exists c, m. rewrite Hci, Hmi, Hcl, Hct, Hml, Hmt. auto 10.
Qed.

Lemma class_method_edges_witness :
  exists c m : CodeNode.t,
    In c (nodes (visitNode Sample2.classAB resetState))
    /\ CodeNode.label c = "A"
    /\ CodeNode.type c = ty_class
    /\ In m (nodes (visitNode Sample2.classAB resetState))
    /\ CodeNode.label m = "m"
    /\ CodeNode.type m = ty_function
    /\ In (edgeBetween (CodeNode.id c) (CodeNode.id m) e_default)
          (edges (visitNode Sample2.classAB resetState)).
Proof.
  apply (class_method_edges Sample2.classAB Sample2.methodM resetState);
    [reflexivity | reflexivity | simpl; tauto | reflexivity].
Defined.

(** X17.  Visiting a class declaration, in a state whose index mirrors
    its nodes, leaves for each type of each of its heritage clauses a
    graph node of kind class labelled with the base's name and an edge
    from the class's graph node to it, ['extends'] for an extends clause
    and ['implements'] otherwise; visiting an interface declaration
    leaves a graph node of kind interface labelled with the base's name
    and an ['extends'] edge from the interface's graph node to it. *)
Theorem heritage_edges :
  (forall node clause base s,
      mirrored s ->
      isClassDeclaration node = true ->
      In clause (array p_heritageClauses node) ->
      In base (array p_types clause) ->
      let s' := visitNode node s in
      exists c b : CodeNode.t,
        In c (nodes s')
        /\ CodeNode.label c = className node
        /\ CodeNode.type c = ty_class
        /\ In b (nodes s')
        /\ CodeNode.label b = getText (mandatory p_expression base)
        /\ CodeNode.type b = ty_class
        /\ In (edgeBetween (CodeNode.id c) (CodeNode.id b)
                 (match token clause with
                  | Some ExtendsKeyword => e_extends
                  | _ => e_implements
                  end))
              (edges s'))
  /\ (forall node clause base s,
        mirrored s ->
        isInterfaceDeclaration node = true ->
        In clause (array p_heritageClauses node) ->
        In base (array p_types clause) ->
        let s' := visitNode node s in
        exists c b : CodeNode.t,
          In c (nodes s')
          /\ CodeNode.label c = getText (mandatory p_name node)
          /\ CodeNode.type c = ty_interface
          /\ In b (nodes s')
          /\ CodeNode.label b = getText (mandatory p_expression base)
          /\ CodeNode.type b = ty_interface
          /\ In (edgeBetween (CodeNode.id c) (CodeNode.id b) e_extends)
                (edges s')).
Proof.
  split.
  - intros node clause base s Hs Hk Hclause Hbase s'.
    destruct (proj1 heritage_entries node clause base s Hk Hclause Hbase)
      as (vc & vb & Hvc & Hkc & Hvb & Hkb & Hedge).
    fold s' in Hvc, Hvb, Hedge.
    pose proof (visitNode_mirrored node s Hs) as Hs'. fold s' in Hs'.
    destruct (mirrored_entry_node s' vc Hs' Hvc) as (c & Hc & Hci & Hcl & Hct).
    destruct (mirrored_entry_node s' vb Hs' Hvb) as (b & Hb & Hbi & Hbl & Hbt).
    unfold visitedKey in Hkc, Hkb.
    injection Hkc as Hcn Hcty. injection Hkb as Hbn Hbty.
    exists c, b. rewrite Hci, Hbi, Hcl, Hct, Hbl, Hbt. auto 10.
  - intros node clause base s Hs Hk Hclause Hbase s'.
    destruct (proj2 heritage_entries node clause base s Hk Hclause Hbase)
      as (vc & vb & Hvc & Hkc & Hvb & Hkb & Hedge).
    fold s' in Hvc, Hvb, Hedge.
    pose proof (visitNode_mirrored node s Hs) as Hs'. fold s' in Hs'.
    destruct (mirrored_entry_node s' vc Hs' Hvc) as (c & Hc & Hci & Hcl & Hct).
    destruct (mirrored_entry_node s' vb Hs' Hvb) as (b & Hb & Hbi & Hbl & Hbt).
    unfold visitedKey in Hkc, Hkb.
    injection Hkc as Hcn Hcty. injection Hkb as Hbn Hbty.
    exists c, b. rewrite Hci, Hbi, Hcl, Hct, Hbl, Hbt. auto 10.
Qed.

Lemma heritage_edges_witness :
  (exists c b : CodeNode.t,
      In c (nodes (visitNode Sample2.classAB resetState))
      /\ CodeNode.label c = "A"
      /\ CodeNode.type c = ty_class
      /\ In b (nodes (visitNode Sample2.classAB resetState))
      /\ CodeNode.label b = "B"
      /\ CodeNode.type b = ty_class
      /\ In (edgeBetween (CodeNode.id c) (CodeNode.id b) e_extends)
            (edges (visitNode Sample2.classAB resetState)))
  /\ (exists c b : CodeNode.t,
        In c (nodes (visitNode Sample2.interfaceJI resetState))
        /\ CodeNode.label c = "J"
        /\ CodeNode.type c = ty_interface
        /\ In b (nodes (visitNode Sample2.interfaceJI resetState))
        /\ CodeNode.label b = "I"
        /\ CodeNode.type b = ty_interface
        /\ In (edgeBetween (CodeNode.id c) (CodeNode.id b) e_extends)
              (edges (visitNode Sample2.interfaceJI resetState))).
Proof.
  split.
  - apply (proj1 heritage_edges Sample2.classAB
             (Build.heritage ExtendsKeyword "B")
             (mkNode p_types ExpressionWithTypeArguments "B"
                [Build.identifier p_expression "B"]) resetState);
      [reflexivity | reflexivity | simpl; tauto | simpl; tauto].
  - apply (proj2 heritage_edges Sample2.interfaceJI
             (Build.heritage ExtendsKeyword "I")
             (mkNode p_types ExpressionWithTypeArguments "I"
                [Build.identifier p_expression "I"]) resetState);
      [reflexivity | reflexivity | simpl; tauto | simpl; tauto].
Defined.

(** X18.  The identifier [addNode] returns always names a graph node of
    the requested name and kind: the index and the node list agree entry
    by entry on identifier, name and kind, from the reset on and through
    every run. *)
Theorem addNode_resolves :
  (forall this sourceFile, mirrored (snd (analyze this sourceFile)))
  /\ (forall type name details s,
        mirrored s ->
        let id := fst (addNode type name details s) in
        let s' := snd (addNode type name details s) in
        mirrored s'
        /\ exists n, In n (nodes s')
                     /\ CodeNode.id n = id
                     /\ CodeNode.label n = name
                     /\ CodeNode.type n = type).
Proof.
  split.
  - intros this sourceFile.
    apply (analyze_establishes mirrored mirrored_addNode mirrored_addEdge).
    reflexivity.
  - intros type name details s H id s'. subst id s'.
    pose proof (mirrored_addNode type name details s H) as H'.
    split; [exact H'|].
    destruct (addNode_entry type name details s) as (v & Hv & Hkey & Hid).
    unfold mirrored in H'.
    apply (in_map (fun v => (VisitedNode.id v, VisitedNode.name v,
                             VisitedNode.type v))) in Hv.
    rewrite H' in Hv. apply in_map_iff in Hv as (n & Hn & Hin).
    exists n. split; [exact Hin|].
    unfold visitedKey in Hkey. injection Hkey as Hname Htype.
    injection Hn as Hi Hl Ht.
    rewrite Hi, Hl, Ht. auto.
Qed.

Lemma addNode_resolves_witness :
  exists n, In n (nodes (snd (addNode ty_class "A" None Sample.afterClassA)))
            /\ CodeNode.id n = "node-1"
            /\ CodeNode.label n = "A"
            /\ CodeNode.type n = ty_class.
Proof.
  apply (proj2 addNode_resolves ty_class "A" None Sample.afterClassA).
  reflexivity.
Defined.
